(** * AI Legal Assistant: the topic gate and the collaborator wrappers

    A shallow embedding of [app.py] and [tools/ipc_sections_search_tool.py].

    - [PyStr]: the Python string operations the topic gate relies on
      ([str.strip], [str.lower], [in], [str.startswith]).
    - [Classifier]: [is_legal_question] and its three fixed tables.
    - [Py]: outcomes of calls that may raise, and [try]/[except].
    - [Store]: the [users] and [history] tables of [users.db].
    - [Mailer]: [send_email], [save_email_details], [send_reminder_emails].
    - [Extractor]: [extract_text_from_pdf].
    - [Groq]: [ask_groq] and the answer built by the chat handlers.
    - [IpcSearch]: [search_ipc_sections].
    - [Report]: the canvas calls of [generate_pdf].
    - [Titles]: [load_conversation_titles].
    - [Reminders]: the [reminders] table and the reminder form.
    - [Session]: [st.session_state] and the handlers of the pages.
    - [Accounts], [IpcTool]: registrations in a row, the import of the
      search tool. *)

From Stdlib Require Import List Bool Arith Lia NArith ZArith Ascii String.
From Stdlib Require Import DecimalString Permutation Sorted.
Import ListNotations.

(* ================================================================== *)
(** * Python strings *)
(* ================================================================== *)

(** A Python [str] is a sequence of code points.  The gate inspects its
    input one character at a time, so a string is a list of characters;
    a character carries a code point in the range 0..255, on which
    [isspace] and [lower] below agree with CPython. *)

Module PyStr.

Definition str := list ascii.

(** String literals of the source. *)
Definition lit (s : string) : str := list_ascii_of_string s.

Definition code (c : ascii) : N := N_of_ascii c.

(** [str.isspace] on one character: TAB..CR, FS..US, SPACE, NEL, NBSP. *)
Definition isspace (c : ascii) : bool :=
  let n := code c in
  ((9 <=? n) && (n <=? 13) || (28 <=? n) && (n <=? 32)
   || (n =? 133) || (n =? 160))%N.

(** [str.lower] on one character: A..Z and the upper-case letters of the
    Latin-1 block (all but the multiplication sign) move up by 32. *)
Definition lower_char (c : ascii) : ascii :=
  let n := code c in
  if ((65 <=? n) && (n <=? 90)
      || (192 <=? n) && (n <=? 222) && negb (n =? 215))%N
  then ascii_of_N (n + 32) else c.

Definition lower (s : str) : str := map lower_char s.

(** Drop the leading characters that satisfy [p]. *)
Fixpoint drop_while (p : ascii -> bool) (s : str) : str :=
  match s with
  | [] => []
  | c :: s' => if p c then drop_while p s' else s
  end.

Definition lstrip (s : str) : str := drop_while isspace s.
Definition rstrip (s : str) : str := rev (drop_while isspace (rev s)).

(** [s.strip()]: whitespace removed at both ends. *)
Definition strip (s : str) : str := rstrip (lstrip s).

Fixpoint str_eqb (a b : str) : bool :=
  match a, b with
  | [], [] => true
  | x :: a', y :: b' => Ascii.eqb x y && str_eqb a' b'
  | _, _ => false
  end.

(** [s.startswith(p)]. *)
Fixpoint startswith (s p : str) : bool :=
  match p, s with
  | [], _ => true
  | _ :: _, [] => false
  | x :: p', y :: s' => Ascii.eqb x y && startswith s' p'
  end.

(** [sub in s]: [sub] occurs in [s] at some offset. *)
Fixpoint contains (sub s : str) : bool :=
  startswith s sub ||
  match s with
  | [] => false
  | _ :: s' => contains sub s'
  end.

(** Number of characters of [s] that are not whitespace. *)
Definition count_nonspace (s : str) : nat :=
  List.length (filter (fun c => negb (isspace c)) s).

(** [sub] is a substring of [s], at any offset. *)
Definition occurs_in (sub s : str) : Prop :=
  exists pre post, s = pre ++ sub ++ post.

(** [s] starts with [p]. *)
Definition begins_with (p s : str) : Prop :=
  exists rest, s = p ++ rest.

(** [sub] occurs in [s] up to the case of letters. *)
Definition occurs_in_ignoring_case (sub s : str) : Prop :=
  exists pre mid post, s = pre ++ mid ++ post /\ lower mid = lower sub.

(** The first and the last character of [s] exist and are not whitespace. *)
Definition solid_ends (s : str) : bool :=
  match s, rev s with
  | c :: _, d :: _ => negb (isspace c) && negb (isspace d)
  | _, _ => false
  end.

End PyStr.

(* ================================================================== *)
(** * The topic gate *)
(* ================================================================== *)

Module Classifier.
Import PyStr.

Definition legal_keywords : list str := map lit [
  (* Basic legal terms *)
  "law"; "legal"; "court"; "judge"; "lawyer"; "attorney"; "advocate";
  "case"; "lawsuit"; "litigation"; "trial"; "hearing"; "verdict";
  (* Contract related *)
  "contract"; "agreement"; "breach"; "terms"; "clause"; "violation";
  "binding"; "negotiation"; "dispute"; "settlement";
  (* Criminal law *)
  "criminal"; "crime"; "arrest"; "police"; "bail"; "prison"; "jail";
  "theft"; "fraud"; "assault"; "murder"; "robbery"; "evidence";
  "investigation"; "charges"; "guilty"; "innocent"; "conviction";
  (* Civil law *)
  "civil"; "plaintiff"; "defendant"; "damages"; "compensation";
  "negligence"; "liability"; "tort"; "injury"; "accident";
  (* Property law *)
  "property"; "real estate"; "land"; "ownership"; "title"; "deed";
  "mortgage"; "lease"; "rent"; "tenant"; "landlord"; "eviction";
  (* Family law *)
  "divorce"; "marriage"; "custody"; "alimony"; "adoption"; "inheritance";
  "will"; "estate"; "guardian"; "family court";
  (* Business law *)
  "corporation"; "company"; "business"; "partnership"; "tax";
  "intellectual property"; "patent"; "trademark"; "copyright";
  "employment"; "workplace"; "discrimination"; "harassment";
  (* Legal procedures *)
  "summon"; "notice"; "petition"; "motion"; "appeal"; "jurisdiction";
  "statute"; "regulation"; "ordinance"; "constitution"; "rights";
  "obligation"; "duty"; "penalty"; "fine"; "sentence";
  (* Indian legal terms *)
  "ipc"; "crpc"; "cpc"; "indian penal code"; "high court"; "supreme court";
  "sessions court"; "magistrate"; "fir"; "chargesheet"; "bail";
  "anticipatory bail"; "interim order"; "stay order"; "injunction";
  (* Common legal phrases *)
  "legal advice"; "legal help"; "legal issue"; "legal problem";
  "legal matter"; "legal question"; "legal rights"; "legal action";
  "legal proceeding"; "legal document"; "legal compliance";
  (* Question starters that are usually legal *)
  "can i sue"; "is it legal"; "what are my rights"; "legal procedure";
  "court process"; "how to file"; "legal requirement"; "violation of"
]%string.

Definition legal_patterns : list str := map lit [
  "what is the law"; "according to law"; "legally speaking";
  "court order"; "legal document"; "file a case"; "legal action";
  "my rights"; "legal procedure"; "court hearing"; "legal advice"
]%string.

Definition legal_question_starts : list str := map lit [
  "can i legally"; "is it illegal"; "what does the law say";
  "according to indian law"; "under which section"; "legal validity";
  "court procedure"; "how to file"; "legal notice"; "summon received"
]%string.

(** Every entry of the three tables. *)
Definition all_entries : list str :=
  legal_keywords ++ legal_patterns ++ legal_question_starts.

(** An entry is lower case, starts and ends with a character that is not
    whitespace, and has at least three such characters. *)
Definition well_shaped (w : str) : bool :=
  str_eqb (lower w) w && solid_ends w && (3 <=? count_nonspace w)
  && (3 <=? List.length w).

(** [not question]: the empty string is falsy. *)
Definition falsy (s : str) : bool :=
  match s with [] => true | _ => false end.

Definition is_legal_question (question : str) : bool :=
  if falsy question || (List.length (strip question) <? 3) then false
  else
    let question_lower := strip (lower question) in
    if existsb (fun keyword => contains keyword question_lower) legal_keywords
    then true
    else if existsb (fun pattern => contains pattern question_lower)
                    legal_patterns
    then true
    else if existsb (fun start => startswith question_lower start)
                    legal_question_starts
    then true
    else false.

End Classifier.

(* ================================================================== *)
(** * Calls that may raise *)
(* ================================================================== *)

Module Py.
Import PyStr.

(** What a Python call does: it returns a value or raises an exception
    (carried here by its message). *)
Inductive outcome (A : Type) : Type :=
| Ret (a : A)
| Raise (e : str).

Arguments Ret {A} a.
Arguments Raise {A} e.

Definition bind {A B} (m : outcome A) (k : A -> outcome B) : outcome B :=
  match m with
  | Ret a => k a
  | Raise e => Raise e
  end.

(** [try: body / except Exception as e: handler e]. *)
Definition try_except {A} (body : outcome A) (handler : str -> outcome A)
  : outcome A :=
  match body with
  | Ret a => Ret a
  | Raise e => handler e
  end.

(** Truth value of an optional string: [None] and [''] are falsy. *)
Definition truthy (s : option str) : bool :=
  match s with
  | Some (_ :: _) => true
  | _ => false
  end.

End Py.

Declare Scope py_scope.
Delimit Scope py_scope with py.
Notation "x <- m ;; k" := (Py.bind m (fun x => k))
  (at level 61, m at next level, right associativity) : py_scope.

(* ================================================================== *)
(** * The relational store ([users.db]) *)
(* ================================================================== *)

Module Store.
Import PyStr.

(** Rows are kept in rowid order: an INSERT adds at the end. *)
Record user_row := {
  u_username : str;
  u_password : str;
  u_role : str;
  u_email : option str
}.

(** [timestamp] defaults to CURRENT_TIMESTAMP: the clock, read in whole
    seconds, at the time of the INSERT. *)
Record history_row := {
  h_username : str;
  h_role : str;
  h_conversation_id : str;
  h_timestamp : nat;
  h_is_user_message : bool;
  h_message : str
}.

Record db := {
  users : list user_row;
  history : list history_row
}.

Definition init_db : db := {| users := []; history := [] |}.

(** What the registration form shows. *)
Inductive notice := RegistrationSuccessful | UsernameAlreadyExists.

(** One entry of [st.session_state["messages"]]. *)
Record message := { role : str; content : str }.

Section WithHash.

(** [hashlib.sha256(b).hexdigest()] applied to the encoded password. *)
Variable sha256_hexdigest : str -> str.

Definition make_hash (password : str) : str := sha256_hexdigest password.

(** The UNIQUE constraint on [username]: the INSERT raises IntegrityError
    when a row already carries this username. *)
Definition username_taken (d : db) (username : str) : bool :=
  existsb (fun r => str_eqb (u_username r) username) (users d).

Definition register_user (d : db) (username password role : str)
           (email : option str) : db * notice :=
  if username_taken d username then (d, UsernameAlreadyExists)
  else
    ({| users := users d ++ [{| u_username := username;
                                u_password := make_hash password;
                                u_role := role;
                                u_email := email |}];
        history := history d |},
     RegistrationSuccessful).

(** [SELECT role, email FROM users WHERE username=? AND password=?],
    then [fetchone()]. *)
Definition login_user (d : db) (username password : str)
  : option (str * option str) :=
  match find (fun r => str_eqb (u_username r) username
                       && str_eqb (u_password r) (make_hash password))
             (users d) with
  | Some r => Some (u_role r, u_email r)
  | None => None
  end.

End WithHash.

(** [now] is the clock reading that CURRENT_TIMESTAMP yields. *)
Definition save_chat_message (d : db) (now : nat)
           (username role conversation_id : str)
           (is_user_message : bool) (message : str) : db :=
  {| users := users d;
     history := history d ++ [{| h_username := username;
                                 h_role := role;
                                 h_conversation_id := conversation_id;
                                 h_timestamp := now;
                                 h_is_user_message := is_user_message;
                                 h_message := message |}] |}.

(** [ORDER BY timestamp ASC]: rows with equal timestamps stay in the order
    in which the scan met them, that is in rowid order. *)
Fixpoint insert_by_timestamp (r : history_row) (l : list history_row)
  : list history_row :=
  match l with
  | [] => [r]
  | x :: l' =>
      if h_timestamp r <=? h_timestamp x then r :: l
      else x :: insert_by_timestamp r l'
  end.

Fixpoint order_by_timestamp (l : list history_row) : list history_row :=
  match l with
  | [] => []
  | r :: l' => insert_by_timestamp r (order_by_timestamp l')
  end.

Definition message_of_row (row : history_row) : message :=
  {| role := if h_is_user_message row then lit "user" else lit "assistant";
     content := h_message row |}.

Definition load_messages_by_conversation_id (d : db) (conversation_id : str)
  : list message :=
  map message_of_row
      (order_by_timestamp
         (filter (fun r => str_eqb (h_conversation_id r) conversation_id)
                 (history d))).

(** One call of [save_chat_message], with the clock reading it meets. *)
Record write := {
  w_now : nat;
  w_username : str;
  w_role : str;
  w_conversation_id : str;
  w_is_user_message : bool;
  w_message : str
}.

Definition row_of_write (w : write) : history_row :=
  {| h_username := w_username w;
     h_role := w_role w;
     h_conversation_id := w_conversation_id w;
     h_timestamp := w_now w;
     h_is_user_message := w_is_user_message w;
     h_message := w_message w |}.

(** The message a write is expected to come back as. *)
Definition message_of_write (w : write) : message :=
  {| role := if w_is_user_message w then lit "user" else lit "assistant";
     content := w_message w |}.

Definition apply_write (d : db) (w : write) : db :=
  save_chat_message d (w_now w) (w_username w) (w_role w)
                    (w_conversation_id w) (w_is_user_message w) (w_message w).

Definition apply_writes (d : db) (ws : list write) : db :=
  fold_left apply_write ws d.

(** No element is followed by a smaller one. *)
Fixpoint nondecreasing (ts : list nat) : Prop :=
  match ts with
  | [] => True
  | t :: ts' => Forall (fun u => t <= u) ts' /\ nondecreasing ts'
  end.

(** The writes for conversation [X] carry timestamps that do not decrease
    from one write to the next, and none of them is earlier than a row
    already stored for [X]. *)
Definition written_in_time_order (d : db) (ws : list write) (X : str)
  : Prop :=
  nondecreasing
    (map w_now (filter (fun w => str_eqb (w_conversation_id w) X) ws))
  /\ forall h w, In h (history d) -> h_conversation_id h = X ->
                 In w ws -> w_conversation_id w = X ->
                 h_timestamp h <= w_now w.

End Store.

(* ================================================================== *)
(** * Reminder e-mails *)
(* ================================================================== *)

Module Mailer.
Import PyStr Py.

Definition nl : str := ["010"%char].

(** [SMTP_PORT] as [int(os.getenv("SMTP_PORT", 587))] sees it: not set,
    the text of an integer, or a text on which [int()] raises ValueError;
    [error] is the message of that exception. *)
Inductive port_setting :=
| PortUnset
| PortNumber (n : Z)
| PortNotANumber (error : str).

Record environ := {
  SENDER_EMAIL : option str;
  SENDER_PASSWORD : option str;
  SMTP_SERVER : option str;
  SMTP_PORT : port_setting
}.

Definition port_well_formed (p : port_setting) : Prop :=
  match p with
  | PortNotANumber _ => False
  | _ => True
  end.

(** The SMTP session of one send (connect, STARTTLS, login, sendmail,
    quit): server, port, login, password, recipient, subject, body. *)
Definition transport :=
  str -> Z -> str -> str -> str -> str -> str -> outcome unit.

Definition getenv_default (v : option str) (default : str) : str :=
  match v with Some x => x | None => default end.

Definition int_port (p : port_setting) : outcome Z :=
  match p with
  | PortUnset => Ret 587%Z
  | PortNumber n => Ret n
  | PortNotANumber error => Raise error
  end.

Definition separator : str := repeat "="%char 50.

(** The text that one call of [save_email_details] appends to
    [sent_emails.txt]; [now] is [datetime.now()] as printed. *)
Definition entry (to_email subject body now : str) : str :=
  nl ++ separator ++ nl
  ++ lit "TO: " ++ to_email ++ nl
  ++ lit "SUBJECT: " ++ subject ++ nl
  ++ lit "BODY:" ++ nl ++ body ++ nl
  ++ lit "TIME: " ++ now ++ nl
  ++ separator ++ nl.

Definition save_email_details (log to_email subject body now : str) : str :=
  log ++ entry to_email subject body now.

(** Returns the flag and the new content of the log file. *)
Definition send_email (env : environ) (smtp : transport) (now log : str)
           (to_email subject body : str) : outcome (bool * str) :=
  (let sender_email := SENDER_EMAIL env in
   let sender_password := SENDER_PASSWORD env in
   let smtp_server := getenv_default (SMTP_SERVER env) (lit "smtp.gmail.com") in
   smtp_port <- int_port (SMTP_PORT env) ;;
   if negb (truthy sender_email) || negb (truthy sender_password) then
     Ret (true, save_email_details log to_email subject body now)
   else
     try_except
       (_ <- smtp smtp_server smtp_port
                  (getenv_default sender_email [])
                  (getenv_default sender_password [])
                  to_email subject body ;;
        Ret (true, save_email_details log to_email subject body now))
       (fun e => Ret (true, save_email_details log to_email subject body now))
  )%py.

Inductive month :=
| January | February | March | April | May | June
| July | August | September | October | November | December.

Record date := { year : nat; month_of : month; day : nat }.

Definition month_name (m : month) : str :=
  lit match m with
      | January => "January" | February => "February" | March => "March"
      | April => "April" | May => "May" | June => "June"
      | July => "July" | August => "August" | September => "September"
      | October => "October" | November => "November"
      | December => "December"
      end.

Definition decimal (n : nat) : str :=
  lit (NilEmpty.string_of_uint (Nat.to_uint n)).

Definition two_digits (n : nat) : str :=
  if n <? 10 then lit "0" ++ decimal n else decimal n.

(** [deadline_date.strftime("%B %d, %Y")]. *)
Definition strftime_B_d_Y (d : date) : str :=
  month_name (month_of d) ++ lit " " ++ two_digits (day d)
  ++ lit ", " ++ decimal (year d).

Definition additional (reminder_message : str) : str :=
  match reminder_message with
  | [] => []
  | _ => lit "📝 Additional Message: " ++ reminder_message
  end.

Definition client_subject (case_number : str) : str :=
  lit "📅 Case " ++ case_number ++ lit " - Deadline Reminder".

Definition lawyer_subject (case_number : str) : str :=
  lit "⚖ Case " ++ case_number ++ lit " - Deadline Reminder".

Definition client_body (case_number deadline_str reminder_message : str)
  : str :=
  lit "Dear Client," ++ nl ++ nl
  ++ lit "This is a reminder regarding your case:" ++ nl ++ nl
  ++ lit "📋 Case Number: " ++ case_number ++ nl
  ++ lit "📅 Deadline: " ++ deadline_str ++ nl ++ nl
  ++ additional reminder_message ++ nl ++ nl
  ++ lit "Please ensure all required documents and actions are completed before the deadline."
  ++ nl ++ nl
  ++ lit "Best regards," ++ nl
  ++ lit "Legal Assistant System" ++ nl.

Definition lawyer_body
           (case_number deadline_str client_email reminder_message : str)
  : str :=
  lit "Dear Lawyer," ++ nl ++ nl
  ++ lit "This is a reminder regarding case:" ++ nl ++ nl
  ++ lit "📋 Case Number: " ++ case_number ++ nl
  ++ lit "📅 Deadline: " ++ deadline_str ++ nl
  ++ lit "👤 Client: " ++ client_email ++ nl ++ nl
  ++ additional reminder_message ++ nl ++ nl
  ++ lit "Please ensure all case preparations are completed before the deadline."
  ++ nl ++ nl
  ++ lit "Best regards," ++ nl
  ++ lit "Legal Assistant System" ++ nl.

(** [now_client] and [now_lawyer] are the clock readings of the two log
    entries.  Returns the flag and the new content of the log file. *)
Definition send_reminder_emails (env : environ) (smtp : transport)
           (now_client now_lawyer log : str)
           (case_number client_email lawyer_email : str)
           (deadline_date : date) (reminder_message : str)
  : outcome (bool * str) :=
  (let deadline_str := strftime_B_d_Y deadline_date in
   client <- send_email env smtp now_client log client_email
               (client_subject case_number)
               (client_body case_number deadline_str reminder_message) ;;
   let '(client_sent, log1) := client in
   lawyer <- send_email env smtp now_lawyer log1 lawyer_email
               (lawyer_subject case_number)
               (lawyer_body case_number deadline_str client_email
                            reminder_message) ;;
   let '(lawyer_sent, log2) := lawyer in
   Ret (client_sent && lawyer_sent, log2))%py.

End Mailer.

(* ================================================================== *)
(** * Text of an uploaded PDF *)
(* ================================================================== *)

Module Extractor.
Import PyStr Py.

(** [page.extract_text()]: a string, [None], or an exception. *)
Definition page := outcome (option str).

(** [pdfplumber.open(file)]: the pages, or an exception. *)
Definition pdf_file := outcome (list page).

(** The body of OCR.space's JSON answer: the [ParsedText] of each entry of
    [ParsedResults], when the keys are there. *)
Definition ocr_json := option (list (option str)).

Fixpoint parsed_texts (parsed : list (option str)) (text : str) : str :=
  match parsed with
  | [] => text
  | p :: rest =>
      parsed_texts rest (text ++ match p with Some t => t | None => [] end
                              ++ Mailer.nl)
  end.

Definition ocr_pdf_with_ocr_space (response : outcome ocr_json)
  : outcome str :=
  (result <- response ;;
   Ret (parsed_texts match result with Some l => l | None => [] end []))%py.

(** The page loop, threading the local variable [text]; an exception
    leaves the loop with the text gathered so far. *)
Fixpoint read_pages (pages : list page) (text : str) : str * outcome unit :=
  match pages with
  | [] => (text, Ret tt)
  | Raise e :: _ => (text, Raise e)
  | Ret page_text :: rest =>
      read_pages rest
                 (if truthy page_text
                  then text ++ match page_text with
                               | Some t => t
                               | None => []
                               end ++ Mailer.nl
                  else text)
  end.

(** Returns the text and what [st.error] showed. *)
Definition extract_text_from_pdf (ocr_api_key : option str)
           (file : pdf_file) (ocr_response : outcome ocr_json)
  : outcome (str * list str) :=
  let report e := lit "Error reading PDF: " ++ e in
  match file with
  | Raise e => Ret ([], [report e])
  | Ret pages =>
      match read_pages pages [] with
      | (text, Raise e) => Ret (text, [report e])
      | (text, Ret _) =>
          if Classifier.falsy (strip text) && truthy ocr_api_key then
            match ocr_pdf_with_ocr_space ocr_response with
            | Ret ocr_text => Ret (ocr_text, [])
            | Raise e => Ret (text, [report e])
            end
          else Ret (text, [])
      end
  end.

(** What the local, page by page extraction yields. *)
Definition local_text (file : pdf_file) : str :=
  match file with
  | Raise _ => []
  | Ret pages => fst (read_pages pages [])
  end.

End Extractor.

(* ================================================================== *)
(** * Answers from the language model *)
(* ================================================================== *)

Module Groq.
Import PyStr Py.

(** [chat.completions.create(model, messages)], seen through the user
    content sent: the [message.content] of each returned choice, or an
    exception. *)
Definition client := str -> str -> outcome (list (option str)).

(** Module level: there is a client only when [GROQ_API_KEY] is set and
    not empty. *)
Definition groq_client (groq_api_key : option str) (connected : client)
  : option client :=
  if truthy groq_api_key then Some connected else None.

Definition models : list str :=
  [lit "llama-3.1-70b-specdec"; lit "llama-3.1-8b-instant"].

Definition user_content (question context_text : str) : str :=
  lit "Document:" ++ Mailer.nl ++ context_text ++ Mailer.nl ++ Mailer.nl
  ++ lit "Question:" ++ Mailer.nl ++ question.

(** The body of the [try]: the call, then [response.choices[0]]. *)
Definition attempt (c : client) (m : str) (question context_text : str)
  : outcome (option str) :=
  (choices <- c m (user_content question context_text) ;;
   match choices with
   | first :: _ => Ret first
   | [] => Raise (lit "list index out of range")
   end)%py.

Fixpoint try_models (c : client) (ms : list str)
         (question context_text : str) : option str :=
  match ms with
  | [] => None
  | m :: rest =>
      match attempt c m question context_text with
      | Ret content => content
      | Raise _ => try_models c rest question context_text
      end
  end.

Definition ask_groq (groq_client : option client)
           (question context_text : str) : option str :=
  match groq_client with
  | None => None
  | Some c => try_models c models question context_text
  end.

Definition get_non_legal_response : str := lit "
🚫 **Please ask a legal question.**

I'm designed to help with legal matters such as:
- Legal advice and procedures
- Court cases and documentation  
- Contract and agreement issues
- Rights and obligations
- Legal compliance matters
- Indian law and regulations

Please rephrase your question to focus on legal topics.

".

Definition fallback : str :=
  lit "Sorry, I couldn't process this legal question right now.".

(** The assistant message built by the chat handlers of both dashboards;
    [context] is ["Legal context"] or ["Civilian legal context"]. *)
Definition chat_answer (groq_client : option client)
           (context user_input : str) : str :=
  if Classifier.is_legal_question user_input then
    let answer := ask_groq groq_client user_input context in
    if truthy answer
    then match answer with Some a => a | None => [] end
    else fallback
  else get_non_legal_response.

End Groq.

(* ================================================================== *)
(** * IPC sections search tool *)
(* ================================================================== *)

Module IpcSearch.
Import PyStr Py.

Record document := {
  metadata : list (str * str);
  page_content : str
}.

(** [store_truth] is the truth value Python gives the store object. *)
Record vector_store := {
  store_truth : bool;
  similarity_search : str -> Z -> outcome (list document)
}.

(** Module level: [vector_db] is [None] when building the store raised. *)
Definition load_vector_db (init : outcome vector_store)
  : option vector_store :=
  match init with
  | Ret v => Some v
  | Raise _ => None
  end.

Record ipc_section := {
  section : option str;
  section_title : option str;
  chapter : option str;
  chapter_title : option str;
  content : str
}.

(** [dict.get(key)]. *)
Fixpoint get (d : list (str * str)) (key : str) : option str :=
  match d with
  | [] => None
  | (k, v) :: d' => if str_eqb k key then Some v else get d' key
  end.

Definition result_of (doc : document) : ipc_section :=
  {| section := get (metadata doc) (lit "section");
     section_title := get (metadata doc) (lit "section_title");
     chapter := get (metadata doc) (lit "chapter");
     chapter_title := get (metadata doc) (lit "chapter_title");
     content := page_content doc |}.

Definition search_ipc_sections (vector_db : option vector_store)
           (query : str) (top_k : Z) : outcome (list ipc_section) :=
  match vector_db with
  | None => Ret []
  | Some db =>
      if negb (store_truth db) then Ret []
      else if Classifier.falsy (strip query) then Ret []
      else
        try_except
          (docs <- similarity_search db query top_k ;;
           Ret (map result_of docs))%py
          (fun e => Ret [])
  end.

End IpcSearch.

(* ================================================================== *)
(** * The downloadable report *)
(* ================================================================== *)

Module Report.
Import PyStr.

(** The calls [generate_pdf] makes on the reportlab canvas; the bytes it
    returns are what reportlab renders from them. *)
Inductive canvas_call :=
| SetFont (name : str) (size : Z)
| DrawString (x y : Z) (text : str)
| ShowPage
| Save.

(** [letter] is 612 by 792 points; every coordinate met here is a whole
    number of points. *)
Definition height : Z := 792.

(** [s.split("\n")]. *)
Fixpoint split_newline (s : str) : list str :=
  match s with
  | [] => [[]]
  | c :: s' =>
      if Ascii.eqb c "010"%char then [] :: split_newline s'
      else match split_newline s' with
           | l :: ls => (c :: l) :: ls
           | [] => [[c]]
           end
  end.

(** The loop over the lines, threading [y]. *)
Fixpoint draw_lines (lines : list str) (y : Z) : list canvas_call :=
  match lines with
  | [] => []
  | line :: rest =>
      DrawString 50 y (firstn 1000 line)
      :: (let y := (y - 15)%Z in
          if (y <? 50)%Z
          then ShowPage :: SetFont (lit "Helvetica") 11
                        :: draw_lines rest (height - 50)%Z
          else draw_lines rest y)
  end.

Definition generate_pdf (text : str) : list canvas_call :=
  [SetFont (lit "Helvetica-Bold") 14;
   DrawString 50 (height - 50)%Z (lit "AI Legal Assistant - Report");
   SetFont (lit "Helvetica") 11]
  ++ draw_lines (split_newline text) (height - 80)%Z
  ++ [Save].

(** The texts drawn, the heights they are drawn at, the page breaks. *)
Fixpoint drawn_texts (calls : list canvas_call) : list str :=
  match calls with
  | [] => []
  | DrawString _ _ text :: rest => text :: drawn_texts rest
  | _ :: rest => drawn_texts rest
  end.

Fixpoint drawn_positions (calls : list canvas_call) : list (Z * Z) :=
  match calls with
  | [] => []
  | DrawString x y _ :: rest => (x, y) :: drawn_positions rest
  | _ :: rest => drawn_positions rest
  end.

Fixpoint page_breaks (calls : list canvas_call) : nat :=
  match calls with
  | [] => 0
  | ShowPage :: rest => S (page_breaks rest)
  | _ :: rest => page_breaks rest
  end.

(** [sep.join(parts)] with [sep] a newline. *)
Fixpoint join_newline (parts : list str) : str :=
  match parts with
  | [] => []
  | [p] => p
  | p :: rest => p ++ "010"%char :: join_newline rest
  end.

End Report.

(* ================================================================== *)
(** * Conversation titles *)
(* ================================================================== *)

Module Titles.
Import PyStr Py Store.

(** [(msg[:45] + "...") if msg and len(msg) > 45 else (msg or "User message")];
    [msg] is [None] for a NULL column. *)
Definition excerpt (msg : option str) : str :=
  if truthy msg
     && (45 <? List.length (match msg with Some m => m | None => [] end))
  then firstn 45 (match msg with Some m => m | None => [] end) ++ lit "..."
  else if truthy msg then match msg with Some m => m | None => [] end
       else lit "User message".

(** The rows the inner SELECT groups: the user messages of [username]. *)
Definition written_by (username : str) (h : history_row) : bool :=
  str_eqb (h_username h) username && h_is_user_message h.

(** [MIN(timestamp)] over the user messages of [username] in one
    conversation; [None] when the group is empty. *)
Fixpoint first_ts (username conversation_id : str) (l : list history_row)
  : option nat :=
  match l with
  | [] => None
  | h :: l' =>
      let rest := first_ts username conversation_id l' in
      if written_by username h
         && str_eqb (h_conversation_id h) conversation_id
      then match rest with
           | Some t => Some (Nat.min (h_timestamp h) t)
           | None => Some (h_timestamp h)
           end
      else rest
  end.

(** The join and the outer WHERE: the user messages of [username] whose
    timestamp is the first of their conversation. *)
Definition is_first (username : str) (all : list history_row)
           (h : history_row) : bool :=
  written_by username h
  && match first_ts username (h_conversation_id h) all with
     | Some t => h_timestamp h =? t
     | None => false
     end.

(** [ORDER BY first_ts DESC]; SQL leaves the order of rows with equal
    [first_ts] open, they are kept here in rowid order. *)
Fixpoint insert_desc (r : history_row) (l : list history_row)
  : list history_row :=
  match l with
  | [] => [r]
  | x :: l' =>
      if h_timestamp x <=? h_timestamp r then r :: l
      else x :: insert_desc r l'
  end.

Fixpoint order_desc (l : list history_row) : list history_row :=
  match l with
  | [] => []
  | r :: l' => insert_desc r (order_desc l')
  end.

Definition title_rows (d : db) (username : str) : list history_row :=
  order_desc (filter (is_first username (history d)) (history d)).

Definition load_conversation_titles (d : db) (username : str)
  : list (str * str) :=
  map (fun h => (h_conversation_id h, excerpt (Some (h_message h))))
      (title_rows d username).

End Titles.

(* ================================================================== *)
(** * Case reminders *)
(* ================================================================== *)

Module Reminders.
Import PyStr Py.

Record reminder := {
  rm_id : nat;
  rm_case_number : str;
  rm_client_email : str;
  rm_lawyer_email : str;
  rm_deadline_date : str;
  rm_message : str;
  rm_created_at : nat
}.

(** The [reminders] table, rows in rowid order.  [last_id] is the largest
    id ever given (AUTOINCREMENT keeps it in [sqlite_sequence]), so that
    an id is not given twice. *)
Record table := {
  rows : list reminder;
  last_id : nat
}.

Definition empty : table := {| rows := []; last_id := 0 |}.

Definition month_number (m : Mailer.month) : nat :=
  match m with
  | Mailer.January => 1 | Mailer.February => 2 | Mailer.March => 3
  | Mailer.April => 4 | Mailer.May => 5 | Mailer.June => 6
  | Mailer.July => 7 | Mailer.August => 8 | Mailer.September => 9
  | Mailer.October => 10 | Mailer.November => 11 | Mailer.December => 12
  end.

(** [deadline_date.strftime("%Y-%m-%d")]. *)
Definition strftime_Y_m_d (d : Mailer.date) : str :=
  Mailer.decimal (Mailer.year d) ++ lit "-"
  ++ Mailer.two_digits (month_number (Mailer.month_of d)) ++ lit "-"
  ++ Mailer.two_digits (Mailer.day d).

(** [storage] is what the sqlite3 calls do: they go through or raise.
    [now] is the clock reading that CURRENT_TIMESTAMP yields. *)
Definition save_case_reminder (storage : outcome unit) (t : table)
           (now : nat) (case_number client_email lawyer_email : str)
           (deadline_date : Mailer.date) (message : str) : table * bool :=
  match storage with
  | Ret _ =>
      ({| rows := rows t ++ [{| rm_id := S (last_id t);
                                rm_case_number := case_number;
                                rm_client_email := client_email;
                                rm_lawyer_email := lawyer_email;
                                rm_deadline_date :=
                                  strftime_Y_m_d deadline_date;
                                rm_message := message;
                                rm_created_at := now |}];
          last_id := S (last_id t) |},
       true)
  | Raise _ => (t, false)
  end.

(** Comparison of two TEXT values: character by character, by code. *)
Fixpoint str_compare (a b : str) : comparison :=
  match a, b with
  | [], [] => Eq
  | [], _ :: _ => Lt
  | _ :: _, [] => Gt
  | x :: a', y :: b' =>
      match N.compare (code x) (code y) with
      | Eq => str_compare a' b'
      | c => c
      end
  end.

Definition str_leb (a b : str) : bool :=
  match str_compare a b with
  | Gt => false
  | _ => true
  end.

(** [ORDER BY deadline_date ASC], rows with equal dates in rowid order. *)
Fixpoint insert_by_deadline (r : reminder) (l : list reminder)
  : list reminder :=
  match l with
  | [] => [r]
  | x :: l' =>
      if str_leb (rm_deadline_date r) (rm_deadline_date x) then r :: l
      else x :: insert_by_deadline r l'
  end.

Fixpoint order_by_deadline (l : list reminder) : list reminder :=
  match l with
  | [] => []
  | r :: l' => insert_by_deadline r (order_by_deadline l')
  end.

(** The stored deadline of [r1] is not after that of [r2], as TEXT. *)
Definition not_later (r1 r2 : reminder) : Prop :=
  str_leb (rm_deadline_date r1) (rm_deadline_date r2) = true.

Definition get_all_reminders (t : table) : list reminder :=
  order_by_deadline (rows t).

Definition delete_reminder (storage : outcome unit) (t : table)
           (reminder_id : nat) : table * bool :=
  match storage with
  | Ret _ =>
      ({| rows := filter (fun r => negb (rm_id r =? reminder_id)) (rows t);
          last_id := last_id t |},
       true)
  | Raise _ => (t, false)
  end.

(** Calendar order of two dates. *)
Definition date_compare (a b : Mailer.date) : comparison :=
  match Nat.compare (Mailer.year a) (Mailer.year b) with
  | Eq =>
      match Nat.compare (month_number (Mailer.month_of a))
                        (month_number (Mailer.month_of b)) with
      | Eq => Nat.compare (Mailer.day a) (Mailer.day b)
      | c => c
      end
  | c => c
  end.

(** A date as the form's date picker hands it over: a year of four
    digits and a day of the month. *)
Definition calendar_date (d : Mailer.date) : Prop :=
  1000 <= Mailer.year d /\ Mailer.year d / 100 < 100
  /\ 1 <= Mailer.day d <= 31.

(** One operation on the table. *)
Inductive operation :=
| SaveReminder (now : nat) (case_number client_email lawyer_email : str)
               (deadline_date : Mailer.date) (message : str)
| DeleteReminder (reminder_id : nat).

Definition apply_operation (t : table) (o : operation) : table :=
  match o with
  | SaveReminder now c ce le dd m =>
      fst (save_case_reminder (Ret tt) t now c ce le dd m)
  | DeleteReminder i => fst (delete_reminder (Ret tt) t i)
  end.

Definition run (t : table) (ops : list operation) : table :=
  fold_left apply_operation ops t.

(** Ids are distinct and none exceeds the counter. *)
Definition ids_in_range (t : table) : Prop :=
  NoDup (map rm_id (rows t))
  /\ Forall (fun r => 1 <= rm_id r <= last_id t) (rows t).

Definition comparison_eqb (a b : comparison) : bool :=
  match a, b with
  | Eq, Eq | Lt, Lt | Gt, Gt => true
  | _, _ => false
  end.

(** What the reminder form shows after a submit. *)
Inductive form_notice :=
| ReminderSavedAndSent
| FailedToSendEmails
| FailedToSaveReminder
| FillInRequiredFields.

(** The submit branch of the reminder form ([deadline_date], a date
    object, is always truthy).  Returns the table as the handler leaves it
    and, unless an exception escapes, the log file, the
    [show_reminder_form] flag and the notice. *)
Definition submit_reminder (env : Mailer.environ) (smtp : Mailer.transport)
           (storage : outcome unit) (now : nat)
           (now_client now_lawyer : str)
           (t : table) (log : str) (show_reminder_form : bool)
           (case_number client_email lawyer_email : str)
           (deadline_date : Mailer.date) (reminder_message : str)
  : table * outcome (str * bool * form_notice) :=
  if negb (Classifier.falsy case_number)
     && negb (Classifier.falsy client_email)
     && negb (Classifier.falsy lawyer_email)
  then
    let (t', success) :=
      save_case_reminder storage t now case_number client_email
                         lawyer_email deadline_date reminder_message in
    if success then
      (t',
       (sent <- Mailer.send_reminder_emails env smtp now_client now_lawyer
                  log case_number client_email lawyer_email deadline_date
                  reminder_message ;;
        let '(email_sent, log') := sent in
        if email_sent
        then Ret (log', false, ReminderSavedAndSent)
        else Ret (log', show_reminder_form, FailedToSendEmails))%py)
    else (t', Ret (log, show_reminder_form, FailedToSaveReminder))
  else (t, Ret (log, show_reminder_form, FillInRequiredFields)).

End Reminders.

(* ================================================================== *)
(** * The session and its handlers *)
(* ================================================================== *)

Module Session.
Import PyStr Py Store.

(** [st.session_state], one field per key. *)
Record session := {
  logged_in : bool;
  ss_role : option str;
  ss_username : option str;
  user_email : option str;
  messages : list message;
  current_conversation_id : option str;
  show_reminder_form : bool;
  show_reminders : bool
}.

(** The values set when ["logged_in"] is not among the keys. *)
Definition initial : session :=
  {| logged_in := false; ss_role := None; ss_username := None;
     user_email := None; messages := []; current_conversation_id := None;
     show_reminder_form := false; show_reminders := false |}.

(** Role selection page: the role is whatever the query string carries. *)
Definition select_role (s : session) (query_role : option str) : session :=
  if logged_in s || truthy (ss_role s) then s
  else match query_role with
       | Some r =>
           {| logged_in := logged_in s; ss_role := Some r;
              ss_username := ss_username s; user_email := user_email s;
              messages := messages s;
              current_conversation_id := current_conversation_id s;
              show_reminder_form := show_reminder_form s;
              show_reminders := show_reminders s |}
       | None => s
       end.

Section WithHash.

Variable sha256_hexdigest : str -> str.

(** The Register button of the login page.  Returns the store and what
    the page shows, if anything. *)
Definition register_click (s : session) (d : db)
           (username password email : str) : db * option notice :=
  if logged_in s then (d, None)
  else match ss_role s with
       | Some (c :: r) =>
           if Classifier.falsy username || Classifier.falsy password
           then (d, None)
           else let (d', n) := register_user sha256_hexdigest d username
                                             password (c :: r) (Some email)
                in (d', Some n)
       | _ => (d, None)
       end.

(** The Login button of the login page; [uuid] is [str(uuid.uuid4())].
    Returns the session and whether the error message is shown. *)
Definition login_click (s : session) (d : db)
           (username password uuid : str) : session * bool :=
  if logged_in s then (s, false)
  else match ss_role s with
       | Some (c :: r) =>
           if Classifier.falsy username || Classifier.falsy password
           then (s, false)
           else
             match login_user sha256_hexdigest d username password with
             | Some (stored_role, email) =>
                 if str_eqb stored_role (c :: r) then
                   ({| logged_in := true; ss_role := ss_role s;
                       ss_username := Some username;
                       user_email := Some (if truthy email
                                           then match email with
                                                | Some e => e
                                                | None => []
                                                end
                                           else []);
                       messages := messages s;
                       current_conversation_id := Some uuid;
                       show_reminder_form := show_reminder_form s;
                       show_reminders := show_reminders s |},
                    false)
                 else (s, true)
             | None => (s, true)
             end
       | _ => (s, false)
       end.

End WithHash.

(** Sidebar: New Chat. *)
Definition new_chat (s : session) (uuid : str) : session :=
  if logged_in s then
    {| logged_in := logged_in s; ss_role := ss_role s;
       ss_username := ss_username s; user_email := user_email s;
       messages := [];
       current_conversation_id := Some uuid;
       show_reminder_form := show_reminder_form s;
       show_reminders := show_reminders s |}
  else s.

(** Sidebar: a click on the title of a stored conversation. *)
Definition open_conversation (s : session) (d : db) (cid : str) : session :=
  if logged_in s then
    {| logged_in := logged_in s; ss_role := ss_role s;
       ss_username := ss_username s; user_email := user_email s;
       messages := load_messages_by_conversation_id d cid;
       current_conversation_id := Some cid;
       show_reminder_form := show_reminder_form s;
       show_reminders := show_reminders s |}
  else s.

(** Sidebar: Logout clears the session; the rerun sets it up afresh. *)
Definition logout (s : session) : session :=
  if logged_in s then initial else s.

(** The context string of the dashboard a role is shown. *)
Definition dashboard_context (r : str) : option str :=
  if str_eqb r (lit "lawyer") then Some (lit "Legal context")
  else if str_eqb r (lit "civilian") then Some (lit "Civilian legal context")
  else None.

(** The conversation id a chat turn writes under: the current one, or
    [uuid] when there is none. *)
Definition conversation_in_use (s : session) (uuid : str) : str :=
  match current_conversation_id s with
  | Some (c :: r) => c :: r
  | _ => uuid
  end.

(** One submission of the chat input on either dashboard.  [now_user] and
    [now_assistant] are the clock readings of the two INSERTs; the user
    name and the role are those set at login. *)
Definition chat_turn (groq_client : option Groq.client) (uuid : str)
           (now_user now_assistant : nat) (s : session) (d : db)
           (user_input : str) : session * db :=
  if negb (logged_in s) then (s, d)
  else
    match ss_role s, ss_username s with
    | Some r, Some u =>
        match dashboard_context r with
        | Some context =>
            if Classifier.falsy user_input then (s, d)
            else
              let cid := conversation_in_use s uuid in
              let d1 := save_chat_message d now_user u r cid true
                                          user_input in
              let answer := Groq.chat_answer groq_client context
                                             user_input in
              let d2 := save_chat_message d1 now_assistant u r cid false
                                          answer in
              ({| logged_in := logged_in s; ss_role := ss_role s;
                  ss_username := ss_username s;
                  user_email := user_email s;
                  messages :=
                    messages s
                    ++ [{| role := lit "user"; content := user_input |};
                        {| role := lit "assistant"; content := answer |}];
                  current_conversation_id := Some cid;
                  show_reminder_form := show_reminder_form s;
                  show_reminders := show_reminders s |},
               d2)
        | None => (s, d)
        end
    | _, _ => (s, d)
    end.

(** The transcript on screen is what the store holds for the current
    conversation. *)
Definition in_sync (s : session) (d : db) : Prop :=
  match current_conversation_id s with
  | Some (c :: r) =>
      messages s = load_messages_by_conversation_id d (c :: r)
  | _ => messages s = []
  end.

(** No row of the history carries this conversation id. *)
Definition unused_id (d : db) (cid : str) : Prop :=
  forall h, In h (history d) -> h_conversation_id h <> cid.

(** No row stored for conversation [cid] is later than [now]. *)
Definition not_after (d : db) (cid : str) (now : nat) : Prop :=
  forall h, In h (history d) -> h_conversation_id h = cid ->
            h_timestamp h <= now.

End Session.

(* ================================================================== *)
(** * Registrations in a row *)
(* ================================================================== *)

Module Accounts.
Import PyStr Store.

(** The arguments of one call of [register_user]. *)
Record registration := {
  reg_username : str;
  reg_password : str;
  reg_role : str;
  reg_email : option str
}.

Definition register_all (sha256_hexdigest : str -> str) (d : db)
           (rs : list registration) : db :=
  fold_left (fun d r => fst (register_user sha256_hexdigest d
                                           (reg_username r) (reg_password r)
                                           (reg_role r) (reg_email r)))
            rs d.

End Accounts.

(* ================================================================== *)
(** * Loading the IPC search tool *)
(* ================================================================== *)

Module IpcTool.
Import PyStr Py IpcSearch.

(** What importing the module does: the two settings are read, the
    embedding function is built, and the store is opened inside a [try].
    Returns the value of [vector_db]. *)
Definition import_module (PERSIST_DIR COLLECTION_NAME : option str)
           (embedding_function : outcome unit)
           (chroma : outcome vector_store)
  : outcome (option vector_store) :=
  (if negb (truthy PERSIST_DIR) || negb (truthy COLLECTION_NAME)
   then Raise (lit "❌ PERSIST_DIRECTORY_PATH or IPC_COLLECTION_NAME not set in .env")
   else _ <- embedding_function ;;
        Ret (load_vector_db chroma))%py.

(** A call of the tool after the import. *)
Definition search_after_import (PERSIST_DIR COLLECTION_NAME : option str)
           (embedding_function : outcome unit)
           (chroma : outcome vector_store) (query : str) (top_k : Z)
  : outcome (list ipc_section) :=
  (vector_db <- import_module PERSIST_DIR COLLECTION_NAME
                              embedding_function chroma ;;
   search_ipc_sections vector_db query top_k)%py.

End IpcTool.

(* ================================================================== *)
(** * Facts about Python strings *)
(* ================================================================== *)

Section PyStrFacts.
Import PyStr.

(** The operations on a few inputs. *)
Example strip_both_ends :
  strip (lit "  What is  BAIL?  ") = lit "What is  BAIL?".
Proof. reflexivity. Qed.

Example strip_blank : strip (lit "   ") = [].
Proof. reflexivity. Qed.

Example lower_mixed : lower (lit "Is it LEGAL, 2 Sue?") = lit "is it legal, 2 sue?".
Proof. reflexivity. Qed.

Example contains_inside : contains (lit "fir") (lit "confirm") = true.
Proof. reflexivity. Qed.

Example contains_not : contains (lit "fir") (lit "fri") = false.
Proof. reflexivity. Qed.

Example startswith_not_inside :
  startswith (lit "so how to file") (lit "how to file") = false.
Proof. reflexivity. Qed.

Lemma str_eqb_eq (a b : str) : str_eqb a b = true <-> a = b.
Proof.
  revert b; induction a as [|x a IH]; intros [|y b]; simpl;
    try (split; [discriminate | congruence]); [tauto|].
  rewrite andb_true_iff, Ascii.eqb_eq, IH.
  split; [intros [-> ->]; reflexivity | intros E; inversion E; auto].
Qed.

Lemma str_eqb_refl (a : str) : str_eqb a a = true.
Proof. apply str_eqb_eq; reflexivity. Qed.

Lemma startswith_spec (s p : str) :
  startswith s p = true <-> begins_with p s.
Proof.
  unfold begins_with.
  revert s; induction p as [|x p IH]; intros s; simpl.
  - split; [intros _; exists s; reflexivity | destruct s; reflexivity].
  - destruct s as [|y s]; simpl.
    + split; [discriminate | intros [r E]; discriminate].
    + rewrite andb_true_iff, Ascii.eqb_eq, IH.
      split.
      * intros [-> [r ->]]; exists r; reflexivity.
      * intros [r E]; inversion E; subst; split; [reflexivity | eauto].
Qed.

Lemma contains_spec (sub s : str) :
  contains sub s = true <-> occurs_in sub s.
Proof.
  unfold occurs_in.
  induction s as [|c s IH].
  - cbn [contains]. rewrite orb_false_r, startswith_spec.
    unfold begins_with.
    split.
    + intros [r E]. exists [], r. exact E.
    + intros [[|x pre] [post E]]; [exists post; exact E | discriminate].
  - cbn [contains]. rewrite orb_true_iff, startswith_spec, IH.
    unfold begins_with. split.
    + intros [[r E] | [pre [post E]]].
      * exists [], r. exact E.
      * exists (c :: pre), post. rewrite E. reflexivity.
    + intros [[|x pre] [post E]].
      * left. exists post. exact E.
      * right. inversion E; subst. eauto.
Qed.

Lemma begins_with_occurs (p s : str) : begins_with p s -> occurs_in p s.
Proof. intros [r E]. exists [], r. exact E. Qed.

Lemma occurs_in_length (sub s : str) :
  occurs_in sub s -> List.length sub <= List.length s.
Proof.
  intros [pre [post ->]]. rewrite !length_app. lia.
Qed.

Lemma occurs_in_trans (a b c : str) :
  occurs_in a b -> occurs_in b c -> occurs_in a c.
Proof.
  intros [p1 [q1 ->]] [p2 [q2 ->]].
  exists (p2 ++ p1), (q1 ++ q2). rewrite <- !app_assoc. reflexivity.
Qed.

(** ** Lower-casing leaves whitespace alone *)

Lemma isspace_lower_char (c : ascii) : isspace (lower_char c) = isspace c.
Proof. destruct c as [[] [] [] [] [] [] [] []]; reflexivity. Qed.

Lemma lower_app (a b : str) : lower (a ++ b) = lower a ++ lower b.
Proof. apply map_app. Qed.

Lemma length_lower (s : str) : List.length (lower s) = List.length s.
Proof. apply length_map. Qed.

Lemma drop_while_lower (s : str) :
  drop_while isspace (lower s) = lower (drop_while isspace s).
Proof.
  induction s as [|c s IH]; simpl; [reflexivity|].
  rewrite isspace_lower_char. destruct (isspace c); [exact IH | reflexivity].
Qed.

Lemma strip_lower (s : str) : strip (lower s) = lower (strip s).
Proof.
  unfold strip, rstrip, lstrip, lower.
  rewrite drop_while_lower. unfold lower.
  rewrite <- map_rev, (drop_while_lower (rev _)). unfold lower.
  rewrite map_rev. reflexivity.
Qed.

Lemma count_nonspace_app (a b : str) :
  count_nonspace (a ++ b) = count_nonspace a + count_nonspace b.
Proof. unfold count_nonspace. rewrite filter_app, length_app. reflexivity. Qed.

Lemma count_nonspace_lower (s : str) :
  count_nonspace (lower s) = count_nonspace s.
Proof.
  unfold count_nonspace. induction s as [|c s IH]; simpl; [reflexivity|].
  rewrite isspace_lower_char. destruct (isspace c); simpl; lia.
Qed.

Lemma occurs_in_count (sub s : str) :
  occurs_in sub s -> count_nonspace sub <= count_nonspace s.
Proof.
  intros [pre [post ->]]. rewrite !count_nonspace_app. lia.
Qed.

(** ** Stripping *)

Lemma drop_while_suffix (p : ascii -> bool) (s : str) :
  exists pre, s = pre ++ drop_while p s.
Proof.
  induction s as [|c s [pre E]]; simpl.
  - exists []. reflexivity.
  - destruct (p c).
    + exists (c :: pre). simpl. congruence.
    + exists []. reflexivity.
Qed.

Lemma strip_occurs (s : str) : occurs_in (strip s) s.
Proof.
  unfold strip, rstrip, lstrip.
  destruct (drop_while_suffix isspace s) as [pre E].
  destruct (drop_while_suffix isspace (rev (drop_while isspace s)))
    as [post F].
  exists pre, (rev post).
  rewrite E at 1. f_equal.
  rewrite <- (rev_involutive (drop_while isspace s)), F at 1.
  rewrite rev_app_distr. reflexivity.
Qed.

Lemma drop_while_keeps (p : ascii -> bool) (a k b : str) (c : ascii)
      (k' : str) :
  k = c :: k' -> p c = false ->
  exists a', drop_while p (a ++ k ++ b) = a' ++ k ++ b.
Proof.
  intros -> Hc. induction a as [|x a [a' E]]; simpl.
  - rewrite Hc. exists []. reflexivity.
  - destruct (p x).
    + exists a'. exact E.
    + exists (x :: a). reflexivity.
Qed.

Lemma strip_keeps (k s : str) :
  solid_ends k = true -> occurs_in k s -> occurs_in k (strip s).
Proof.
  unfold solid_ends. intros Hk [a [b ->]].
  destruct k as [|c k'] eqn:Ek; [discriminate|].
  destruct (rev (c :: k')) as [|d r] eqn:Er; [discriminate|].
  apply andb_true_iff in Hk. destruct Hk as [Hc Hd].
  apply negb_true_iff in Hc. apply negb_true_iff in Hd.
  unfold strip, rstrip, lstrip.
  destruct (drop_while_keeps isspace a (c :: k') b c k' eq_refl Hc)
    as [a' E].
  rewrite E.
  rewrite !rev_app_distr, Er, <- app_assoc.
  destruct (drop_while_keeps isspace (rev b) (d :: r) (rev a') d r
                            eq_refl Hd) as [b' F].
  rewrite F.
  exists a', (rev b').
  rewrite !rev_app_distr, rev_involutive, <- Er, rev_involutive.
  rewrite <- app_assoc. reflexivity.
Qed.

Lemma drop_while_all (p : ascii -> bool) (s : str) :
  Forall (fun c => p c = true) s -> drop_while p s = [].
Proof.
  induction 1 as [|c s Hc _ IH]; simpl; [reflexivity|].
  rewrite Hc. exact IH.
Qed.

Lemma strip_all_space (s : str) :
  Forall (fun c => isspace c = true) s -> strip s = [].
Proof.
  intros H. unfold strip, rstrip, lstrip.
  rewrite (drop_while_all isspace s H). reflexivity.
Qed.

Lemma length_strip_lower (s : str) :
  List.length (strip (lower s)) = List.length (strip s).
Proof. rewrite strip_lower. apply length_lower. Qed.

End PyStrFacts.

(* ================================================================== *)
(** * The topic gate: properties *)
(* ================================================================== *)

Section ClassifierFacts.
Import PyStr Classifier.

(** Membership in a table, decided by evaluation. *)
Lemma In_by_eval (w : str) (l : list str) :
  existsb (str_eqb w) l = true -> In w l.
Proof.
  intros H. apply existsb_exists in H. destruct H as [x [Hin E]].
  apply str_eqb_eq in E. subst. exact Hin.
Qed.

(** No entry of [l] occurs in [s], decided by evaluation. *)
Lemma none_occurs_by_eval (l : list str) (s : str) :
  existsb (fun w => contains w s) l = false ->
  forall w, In w l -> ~ occurs_in w s.
Proof.
  intros H w Hin Hocc. apply contains_spec in Hocc.
  assert (existsb (fun w => contains w s) l = true) as E
      by (apply existsb_exists; eauto).
  congruence.
Qed.

Lemma none_begins_by_eval (l : list str) (s : str) :
  existsb (fun w => startswith s w) l = false ->
  forall w, In w l -> ~ begins_with w s.
Proof.
  intros H w Hin Hb. apply startswith_spec in Hb.
  assert (existsb (fun w => startswith s w) l = true) as E
      by (apply existsb_exists; eauto).
  congruence.
Qed.

Lemma entries_well_shaped : forall w, In w all_entries -> well_shaped w = true.
Proof.
  apply forallb_forall. vm_compute. reflexivity.
Qed.

Lemma entry_facts (w : str) :
  In w all_entries ->
  lower w = w /\ solid_ends w = true /\ 3 <= count_nonspace w
  /\ 3 <= List.length w.
Proof.
  intros H. apply entries_well_shaped in H. unfold well_shaped in H.
  rewrite !andb_true_iff in H. destruct H as [[[H1 H2] H3] H4].
  apply str_eqb_eq in H1. apply Nat.leb_le in H3. apply Nat.leb_le in H4.
  auto.
Qed.

Lemma keyword_entry (w : str) : In w legal_keywords -> In w all_entries.
Proof. intros H. unfold all_entries. apply in_or_app. auto. Qed.

Lemma pattern_entry (w : str) : In w legal_patterns -> In w all_entries.
Proof.
  intros H. unfold all_entries. apply in_or_app. right.
  apply in_or_app. auto.
Qed.

Lemma start_entry (w : str) : In w legal_question_starts -> In w all_entries.
Proof.
  intros H. unfold all_entries. apply in_or_app. right.
  apply in_or_app. auto.
Qed.

(** The length guard lets through every question in whose normalized form
    a table entry occurs. *)
Lemma guard_passes (question w : str) :
  In w all_entries -> occurs_in w (strip (lower question)) ->
  falsy question || (List.length (strip question) <? 3) = false.
Proof.
  intros Hw Hocc.
  destruct (entry_facts w Hw) as [_ [_ [_ Hlen]]].
  apply occurs_in_length in Hocc. rewrite length_strip_lower in Hocc.
  apply orb_false_iff. split.
  - destruct question; [simpl in Hocc; lia | reflexivity].
  - apply Nat.ltb_ge. lia.
Qed.

(** What the three loops leave of an accepted question. *)
Lemma accepted_inv (question : str) :
  is_legal_question question = true ->
  exists w, In w all_entries /\ occurs_in w (strip (lower question)).
Proof.
  unfold is_legal_question.
  destruct (falsy question || _); [discriminate|].
  destruct (existsb _ legal_keywords) eqn:K.
  { intros _. apply existsb_exists in K. destruct K as [w [Hin Hc]].
    exists w. split; [apply keyword_entry, Hin | apply contains_spec, Hc]. }
  destruct (existsb _ legal_patterns) eqn:P.
  { intros _. apply existsb_exists in P. destruct P as [w [Hin Hc]].
    exists w. split; [apply pattern_entry, Hin | apply contains_spec, Hc]. }
  destruct (existsb _ legal_question_starts) eqn:S; [|discriminate].
  intros _. apply existsb_exists in S. destruct S as [w [Hin Hc]].
  exists w. split; [apply start_entry, Hin|].
  apply begins_with_occurs, startswith_spec, Hc.
Qed.

(** C1. A question that contains one of the fixed legal keywords as a
    substring at any offset, whatever the case of its letters (for
    instance "contract", "fir" or "bail"), is classified as legal:
    [is_legal_question] returns [True]. *)
Theorem keyword_anywhere_is_legal (question keyword : str) :
  In keyword legal_keywords ->
  occurs_in_ignoring_case keyword question ->
  is_legal_question question = true.
Proof.
  intros Hin [pre [mid [post [Eq Emid]]]].
  pose proof (keyword_entry keyword Hin) as Hent.
  destruct (entry_facts keyword Hent) as [Hlow [Hends _]].
  rewrite Hlow in Emid.
  assert (occurs_in keyword (strip (lower question))) as Hocc.
  { apply strip_keeps; [exact Hends|].
    exists (lower pre), (lower post).
    rewrite Eq, !lower_app, Emid. reflexivity. }
  unfold is_legal_question.
  rewrite (guard_passes question keyword Hent Hocc).
  assert (existsb (fun k => contains k (strip (lower question)))
                  legal_keywords = true) as K.
  { apply existsb_exists. exists keyword. split; [exact Hin|].
    apply contains_spec, Hocc. }
  cbv zeta. rewrite K. reflexivity.
Qed.

(** The three keywords named with C1, each inside a longer question and
    in mixed case. *)
Lemma keyword_anywhere_is_legal_witness :
  is_legal_question (lit "  Is this CONTRACT valid?  ") = true
  /\ is_legal_question (lit "He went to conFIRm it") = true
  /\ is_legal_question (lit "Bailey") = true.
Proof.
  split; [|split].
  - apply (keyword_anywhere_is_legal _ (lit "contract")).
    + apply In_by_eval. vm_compute. reflexivity.
    + exists (lit "  Is this "), (lit "CONTRACT"), (lit " valid?  ").
      split; reflexivity.
  - apply (keyword_anywhere_is_legal _ (lit "fir")).
    + apply In_by_eval. vm_compute. reflexivity.
    + exists (lit "He went to con"), (lit "FIR"), (lit "m it").
      split; reflexivity.
  - apply (keyword_anywhere_is_legal _ (lit "bail")).
    + apply In_by_eval. vm_compute. reflexivity.
    + exists [], (lit "Bail"), (lit "ey").
      split; reflexivity.
Defined.

(** C2. A question whose normalized (trimmed, lower-cased) form contains
    no keyword, contains no phrase and starts with no opener is rejected:
    [is_legal_question] returns [False]. *)
Theorem no_match_is_rejected (question : str) :
  (forall keyword, In keyword legal_keywords ->
                   ~ occurs_in keyword (strip (lower question))) ->
  (forall pattern, In pattern legal_patterns ->
                   ~ occurs_in pattern (strip (lower question))) ->
  (forall start, In start legal_question_starts ->
                 ~ begins_with start (strip (lower question))) ->
  is_legal_question question = false.
Proof.
  intros HK HP HS.
  destruct (is_legal_question question) eqn:E; [exfalso | reflexivity].
  unfold is_legal_question in E.
  destruct (falsy question || _); [discriminate|].
  destruct (existsb _ legal_keywords) eqn:K.
  { apply existsb_exists in K. destruct K as [w [Hin Hc]].
    apply (HK w Hin), contains_spec, Hc. }
  destruct (existsb _ legal_patterns) eqn:P.
  { apply existsb_exists in P. destruct P as [w [Hin Hc]].
    apply (HP w Hin), contains_spec, Hc. }
  destruct (existsb _ legal_question_starts) eqn:S; [|discriminate].
  apply existsb_exists in S. destruct S as [w [Hin Hc]].
  apply (HS w Hin), startswith_spec, Hc.
Qed.

(** The question named with C2. *)
Lemma no_match_is_rejected_witness :
  is_legal_question (lit "what's a good recipe for pasta") = false.
Proof.
  apply no_match_is_rejected.
  - apply none_occurs_by_eval. vm_compute. reflexivity.
  - apply none_occurs_by_eval. vm_compute. reflexivity.
  - apply none_begins_by_eval. vm_compute. reflexivity.
Defined.

(** C3. A question with fewer than three characters that are not
    whitespace is rejected, also when its trimmed form has three
    characters or more (as in "a b"): no keyword, phrase or opener has
    fewer than three such characters. *)
Theorem short_question_is_rejected (question : str) :
  count_nonspace question < 3 ->
  is_legal_question question = false.
Proof.
  intros Hshort.
  destruct (is_legal_question question) eqn:E; [exfalso | reflexivity].
  apply accepted_inv in E. destruct E as [w [Hent Hocc]].
  destruct (entry_facts w Hent) as [_ [_ [Hcount _]]].
  apply occurs_in_count in Hocc.
  pose proof (occurs_in_count _ _ (strip_occurs (lower question))) as Hstrip.
  rewrite count_nonspace_lower in Hstrip.
  lia.
Qed.

(** "a b" passes the length guard and is rejected all the same. *)
Lemma short_question_is_rejected_witness :
  3 <= List.length (strip (lit "a b"))
  /\ is_legal_question (lit "a b") = false.
Proof.
  split.
  - vm_compute. lia.
  - apply short_question_is_rejected. vm_compute. lia.
Defined.

(** C4. A question whose normalized form starts with one of the fixed
    opener phrases is classified as legal, whether or not a keyword or a
    phrase occurs in it. *)
Theorem opener_is_legal (question start rest : str) :
  In start legal_question_starts ->
  strip (lower question) = start ++ rest ->
  is_legal_question question = true.
Proof.
  intros Hin Eq.
  pose proof (start_entry start Hin) as Hent.
  assert (begins_with start (strip (lower question))) as Hb
      by (exists rest; exact Eq).
  unfold is_legal_question.
  rewrite (guard_passes question start Hent (begins_with_occurs _ _ Hb)).
  cbv zeta.
  destruct (existsb _ legal_keywords); [reflexivity|].
  destruct (existsb _ legal_patterns); [reflexivity|].
  assert (existsb (fun s => startswith (strip (lower question)) s)
                  legal_question_starts = true) as S.
  { apply existsb_exists. exists start. split; [exact Hin|].
    apply startswith_spec, Hb. }
  rewrite S. reflexivity.
Qed.

(** An opener followed by words among which no keyword and no phrase
    occurs, and the question named with C4. *)
Lemma opener_is_legal_witness :
  existsb (fun w => contains w (lit "under which section does this go"))
          (legal_keywords ++ legal_patterns) = false
  /\ is_legal_question (lit " Under which Section does this go ") = true
  /\ is_legal_question (lit "can i legally drive without a license") = true.
Proof.
  split; [vm_compute; reflexivity | split].
  - apply (opener_is_legal _ (lit "under which section")
                           (lit " does this go")).
    + apply In_by_eval. vm_compute. reflexivity.
    + vm_compute. reflexivity.
  - apply (opener_is_legal _ (lit "can i legally")
                           (lit " drive without a license")).
    + apply In_by_eval. vm_compute. reflexivity.
    + vm_compute. reflexivity.
Defined.

End ClassifierFacts.

(* ================================================================== *)
(** * Chat history: properties *)
(* ================================================================== *)

Section StoreFacts.
Import PyStr Store.

Lemma history_apply_writes (ws : list write) (d : db) :
  history (apply_writes d ws) = history d ++ map row_of_write ws.
Proof.
  revert d. induction ws as [|w ws IH]; intros d.
  - simpl. rewrite app_nil_r. reflexivity.
  - change (apply_writes d (w :: ws))
      with (apply_writes (apply_write d w) ws).
    rewrite IH. simpl. rewrite <- app_assoc. reflexivity.
Qed.

Lemma users_apply_writes (ws : list write) (d : db) :
  users (apply_writes d ws) = users d.
Proof.
  revert d. induction ws as [|w ws IH]; intros d; [reflexivity|].
  change (apply_writes d (w :: ws))
    with (apply_writes (apply_write d w) ws).
  rewrite IH. reflexivity.
Qed.

Lemma nondecreasing_app_l (a b : list nat) :
  nondecreasing (a ++ b) -> nondecreasing a.
Proof.
  induction a as [|t a IH]; simpl; [trivial|].
  intros [H1 H2]. split; [|auto].
  apply Forall_app in H1. tauto.
Qed.

Lemma insert_in_front (r : history_row) (l : list history_row) :
  Forall (fun u => h_timestamp r <= u) (map h_timestamp l) ->
  insert_by_timestamp r l = r :: l.
Proof.
  destruct l as [|x l]; simpl; [reflexivity|].
  intros H. inversion H as [|? ? Hx _]; subst.
  apply Nat.leb_le in Hx. rewrite Hx. reflexivity.
Qed.

(** Rows already in timestamp order come back as they are. *)
Lemma order_by_timestamp_sorted (l : list history_row) :
  nondecreasing (map h_timestamp l) -> order_by_timestamp l = l.
Proof.
  induction l as [|r l IH]; simpl; [reflexivity|].
  intros [H1 H2]. rewrite (IH H2). apply insert_in_front, H1.
Qed.

Lemma nondecreasing_filter (f : history_row -> bool) (l : list history_row) :
  nondecreasing (map h_timestamp l) ->
  nondecreasing (map h_timestamp (filter f l)).
Proof.
  induction l as [|r l IH]; simpl; [trivial|].
  intros [H1 H2]. destruct (f r); simpl; [|auto].
  split; [|auto].
  rewrite Forall_map in *. rewrite Forall_forall in *.
  intros x Hx. apply filter_In in Hx. apply H1, Hx.
Qed.

Lemma filter_rows_of_writes (X : str) (ws : list write) :
  filter (fun r => str_eqb (h_conversation_id r) X) (map row_of_write ws)
  = map row_of_write
        (filter (fun w => str_eqb (w_conversation_id w) X) ws).
Proof.
  induction ws as [|w ws IH]; simpl; [reflexivity|].
  destruct (str_eqb (w_conversation_id w) X); simpl; rewrite IH; reflexivity.
Qed.

Lemma insert_by_timestamp_perm (r : history_row) (l : list history_row) :
  Permutation (insert_by_timestamp r l) (r :: l).
Proof.
  induction l as [|x l IH]; simpl; [reflexivity|].
  destruct (h_timestamp r <=? h_timestamp x); [reflexivity|].
  rewrite IH. apply perm_swap.
Qed.

Lemma order_by_timestamp_perm (l : list history_row) :
  Permutation (order_by_timestamp l) l.
Proof.
  induction l as [|r l IH]; simpl; [reflexivity|].
  rewrite insert_by_timestamp_perm, IH. reflexivity.
Qed.

(** A row that is not later than any row of [B] is inserted before
    [B]. *)
Lemma insert_before_later (x : history_row) (M B : list history_row) :
  Forall (fun b => h_timestamp x <= h_timestamp b) B ->
  insert_by_timestamp x (M ++ B) = insert_by_timestamp x M ++ B.
Proof.
  intros HB. induction M as [|y M IH]; simpl.
  - apply insert_in_front. rewrite Forall_map. exact HB.
  - destruct (h_timestamp x <=? h_timestamp y); [reflexivity|].
    rewrite IH. reflexivity.
Qed.

(** Rows in timestamp order, none earlier than a row of [A], stay where
    they are behind [A]. *)
Lemma order_by_timestamp_app (A B : list history_row) :
  nondecreasing (map h_timestamp B) ->
  (forall a b, In a A -> In b B -> h_timestamp a <= h_timestamp b) ->
  order_by_timestamp (A ++ B) = order_by_timestamp A ++ B.
Proof.
  intros HB Hcross. induction A as [|x A IH]; simpl.
  - apply order_by_timestamp_sorted, HB.
  - rewrite IH by (intros a b Ha Hb; apply Hcross; [right|]; assumption).
    apply insert_before_later. apply Forall_forall.
    intros b Hb. apply Hcross; [left; reflexivity | exact Hb].
Qed.

(** C5 (as amended). Round trip of the chat history.  Every entry written
    through [save_chat_message] for conversation [X] with text [T] and
    user-flag [True] is among the messages that
    [load_messages_by_conversation_id X] returns, with role "user" and
    content [T], whatever the timestamps.  The rows are ordered by
    timestamp, so the messages come back in the order they were written,
    behind what was loaded before, whenever the timestamps of the writes
    for [X] do not decrease from one write to the next and none is
    earlier than a row already stored for [X]. *)
Theorem history_round_trip (d : db) (ws : list write) (X : str) :
  (forall w, In w ws -> w_conversation_id w = X ->
             w_is_user_message w = true ->
             In {| role := lit "user"; content := w_message w |}
                (load_messages_by_conversation_id (apply_writes d ws) X))
  /\ (written_in_time_order d ws X ->
      load_messages_by_conversation_id (apply_writes d ws) X
      = load_messages_by_conversation_id d X
        ++ map message_of_write
               (filter (fun w => str_eqb (w_conversation_id w) X) ws)).
Proof.
  split.
  - intros w Hin Hcid Huser.
    unfold load_messages_by_conversation_id.
    rewrite history_apply_writes.
    replace {| role := lit "user"; content := w_message w |}
      with (message_of_row (row_of_write w))
      by (unfold message_of_row; simpl; rewrite Huser; reflexivity).
    apply in_map.
    apply (Permutation_in _ (Permutation_sym (order_by_timestamp_perm _))).
    apply filter_In. split.
    + apply in_or_app. right. apply in_map, Hin.
    + simpl. apply str_eqb_eq, Hcid.
  - intros [Hsorted Hcross].
    unfold load_messages_by_conversation_id.
    rewrite history_apply_writes, filter_app, filter_rows_of_writes.
    rewrite order_by_timestamp_app.
    + rewrite map_app, map_map. reflexivity.
    + rewrite map_map. exact Hsorted.
    + intros a b Ha Hb.
      apply filter_In in Ha. destruct Ha as [Ha Ea].
      apply in_map_iff in Hb. destruct Hb as [w [<- Hw]].
      apply filter_In in Hw. destruct Hw as [Hw Ew].
      apply str_eqb_eq in Ea. apply str_eqb_eq in Ew.
      exact (Hcross a w Ha Ea Hw Ew).
Qed.

(** Two conversations written in turn, two rows within the same second,
    and a third conversation stamped by a clock that was set back, which
    does not matter to the first. *)
Lemma history_round_trip_witness :
  let w (t : nat) (cid : string) (user : bool) (text : string) :=
    {| w_now := t; w_username := lit "asha"; w_role := lit "civilian";
       w_conversation_id := lit cid; w_is_user_message := user;
       w_message := lit text |} in
  let ws := [w 5 "c1" true "Is bail possible?";
             w 5 "c1" false "It depends on the offence.";
             w 6 "c2" true "hello";
             w 2 "c3" true "stamped early";
             w 9 "c1" true "And after that?"]%string in
  load_messages_by_conversation_id (apply_writes init_db ws) (lit "c1")
  = [{| role := lit "user"; content := lit "Is bail possible?" |};
     {| role := lit "assistant";
        content := lit "It depends on the offence." |};
     {| role := lit "user"; content := lit "And after that?" |}]
  /\ In {| role := lit "user"; content := lit "stamped early" |}
        (load_messages_by_conversation_id (apply_writes init_db ws)
                                          (lit "c3")).
Proof.
  intros w ws. split.
  - rewrite (proj2 (history_round_trip init_db ws (lit "c1"))).
    + reflexivity.
    + split.
      * simpl. repeat constructor; lia.
      * intros h x [].
  - apply (proj1 (history_round_trip init_db ws (lit "c3"))
                 (w 2 "c3" true "stamped early")%string).
    + simpl. tauto.
    + reflexivity.
    + reflexivity.
Defined.

(** The claim as first stated, with the order written promised for any
    timestamps, fails: two writes of one conversation stamped 5 and then
    3 are loaded second first. *)
Lemma history_order_counterexample :
  let w (t : nat) (text : string) :=
    {| w_now := t; w_username := lit "asha"; w_role := lit "civilian";
       w_conversation_id := lit "c1"; w_is_user_message := true;
       w_message := lit text |} in
  let ws := [w 5 "first"; w 3 "second"]%string in
  load_messages_by_conversation_id (apply_writes init_db ws) (lit "c1")
  = [{| role := lit "user"; content := lit "second" |};
     {| role := lit "user"; content := lit "first" |}]
  /\ load_messages_by_conversation_id (apply_writes init_db ws) (lit "c1")
     <> map message_of_write ws.
Proof.
  intros w ws. split; [reflexivity|].
  intros E. vm_compute in E. discriminate.
Qed.

Section UserFacts.

Variable sha256_hexdigest : str -> str.

Lemma find_none (f : user_row -> bool) (l : list user_row) :
  (forall r, In r l -> f r = false) -> find f l = None.
Proof.
  induction l as [|x l IH]; simpl; [reflexivity|].
  intros H. rewrite (H x (or_introl eq_refl)). apply IH.
  intros r Hr. apply H. right. exact Hr.
Qed.

Lemma find_skip (f : user_row -> bool) (l l' : list user_row) :
  (forall r, In r l -> f r = false) -> find f (l ++ l') = find f l'.
Proof.
  induction l as [|x l IH]; simpl; [reflexivity|].
  intros H. rewrite (H x (or_introl eq_refl)). apply IH.
  intros r Hr. apply H. right. exact Hr.
Qed.

Lemma username_taken_false (d : db) (username : str) :
  (forall r, In r (users d) -> u_username r <> username) ->
  username_taken d username = false.
Proof.
  intros H. unfold username_taken.
  destruct (existsb _ (users d)) eqn:E; [exfalso | reflexivity].
  apply existsb_exists in E. destruct E as [r [Hin Heq]].
  apply str_eqb_eq in Heq. exact (H r Hin Heq).
Qed.

(** C10. Registration and login.  When no stored user has the username,
    [register_user] succeeds and stores one more row, after which
    [login_user] with the same username and password returns exactly the
    role and the e-mail address registered; and [login_user] returns
    [None] whenever no stored row has the username together with the
    SHA-256 hex digest of the password offered. *)
Theorem register_login_round_trip (d : db) :
  (forall username password role email,
      (forall r, In r (users d) -> u_username r <> username) ->
      snd (register_user sha256_hexdigest d username password role email)
      = RegistrationSuccessful
      /\ login_user sha256_hexdigest
           (fst (register_user sha256_hexdigest d username password role
                               email))
           username password
         = Some (role, email))
  /\ (forall username p,
         (forall r, In r (users d) ->
                    ~ (u_username r = username
                       /\ u_password r = sha256_hexdigest p)) ->
         login_user sha256_hexdigest d username p = None).
Proof.
  split.
  - intros username password role email Hfresh.
    unfold register_user.
    rewrite (username_taken_false d username Hfresh). simpl.
    split; [reflexivity|].
    unfold login_user. simpl.
    rewrite find_skip.
    + simpl. rewrite !str_eqb_refl. reflexivity.
    + intros r Hr. apply andb_false_iff. left.
      destruct (str_eqb (u_username r) username) eqn:E; [|reflexivity].
      apply str_eqb_eq in E. exfalso. exact (Hfresh r Hr E).
  - intros username p Hnone. unfold login_user.
    rewrite (find_none _ (users d)); [reflexivity|].
    intros r Hr.
    destruct (str_eqb (u_username r) username) eqn:E1;
      destruct (str_eqb (u_password r) (make_hash sha256_hexdigest p))
        eqn:E2; try reflexivity.
    apply str_eqb_eq in E1. apply str_eqb_eq in E2.
    exfalso. apply (Hnone r Hr). split; assumption.
Qed.

End UserFacts.

(** A second user registers beside a first one, logs in, and is refused
    with another password; the digest is replaced by a stand-in that
    reverses its input. *)
Lemma register_login_round_trip_witness :
  let h := @rev ascii in
  let d := fst (register_user h init_db (lit "ravi") (lit "pw1")
                              (lit "lawyer") None) in
  let d' := fst (register_user h d (lit "asha") (lit "s3cret")
                               (lit "civilian") (Some (lit "a@x.org"))) in
  login_user h d' (lit "asha") (lit "s3cret")
  = Some (lit "civilian", Some (lit "a@x.org"))
  /\ login_user h d (lit "asha") (lit "s3cret") = None.
Proof.
  intros h d d'. split.
  - apply (proj1 (register_login_round_trip h d)).
    intros r Hr. simpl in Hr. destruct Hr as [<- | []]. discriminate.
  - apply (proj2 (register_login_round_trip h d)).
    intros r Hr. simpl in Hr. destruct Hr as [<- | []].
    intros [E _]. discriminate.
Defined.

End StoreFacts.

(* ================================================================== *)
(** * Reminder e-mails: properties *)
(* ================================================================== *)

Section MailerFacts.
Import PyStr Py Mailer.

(** One send: the flag is [True] and one entry is appended, with or
    without credentials, whatever the SMTP session does. *)
Lemma send_email_ok (env : environ) (smtp : transport)
      (now log to_email subject body : str) :
  port_well_formed (SMTP_PORT env) ->
  send_email env smtp now log to_email subject body
  = Ret (true, log ++ entry to_email subject body now).
Proof.
  intros Hport. unfold send_email.
  destruct (SMTP_PORT env) as [| n | raw]; [| | destruct Hport];
    cbn [int_port bind];
    (destruct (negb (truthy (SENDER_EMAIL env))
               || negb (truthy (SENDER_PASSWORD env))); [reflexivity|]);
    match goal with
    | |- context [smtp ?a ?b ?c ?d ?e ?f ?g] =>
        destruct (smtp a b c d e f g); reflexivity
    end.
Qed.

(** With SMTP_PORT not set or set to an integer, [send_reminder_emails]
    returns [True] and appends exactly two entries to the log file, the
    client's and then the lawyer's.  This holds when no SMTP credentials
    are configured (simulation mode) and, with credentials, whatever the
    SMTP session does: a session that raises still yields [True]. *)
Lemma reminder_emails_succeed_with_valid_port
        (env : environ) (smtp : transport)
        (now_client now_lawyer log : str)
        (case_number client_email lawyer_email : str)
        (deadline_date : date) (reminder_message : str) :
  port_well_formed (SMTP_PORT env) ->
  send_reminder_emails env smtp now_client now_lawyer log case_number
                       client_email lawyer_email deadline_date
                       reminder_message
  = Ret (true,
         log
         ++ entry client_email (client_subject case_number)
                  (client_body case_number (strftime_B_d_Y deadline_date)
                               reminder_message)
                  now_client
         ++ entry lawyer_email (lawyer_subject case_number)
                  (lawyer_body case_number (strftime_B_d_Y deadline_date)
                               client_email reminder_message)
                  now_lawyer).
Proof.
  intros Hport. unfold send_reminder_emails.
  rewrite (send_email_ok env smtp _ _ _ _ _ Hport). cbn [bind].
  rewrite (send_email_ok env smtp _ _ _ _ _ Hport). cbn [bind andb].
  rewrite <- app_assoc. reflexivity.
Qed.

(** Simulation mode, and credentials with a transport that always
    raises. *)
Lemma reminder_emails_succeed_with_valid_port_example :
  let simulated := {| SENDER_EMAIL := None; SENDER_PASSWORD := None;
                      SMTP_SERVER := None; SMTP_PORT := PortUnset |} in
  let configured := {| SENDER_EMAIL := Some (lit "office@firm.in");
                       SENDER_PASSWORD := Some (lit "app-password");
                       SMTP_SERVER := Some (lit "smtp.firm.in");
                       SMTP_PORT := PortNumber 2525 |} in
  let works : transport := fun _ _ _ _ _ _ _ => Ret tt in
  let fails : transport :=
    fun _ _ _ _ _ _ _ => Raise (lit "Connection refused") in
  let deadline := {| year := 2026; month_of := March; day := 7 |} in
  let run env smtp :=
    send_reminder_emails env smtp (lit "t1") (lit "t2") (lit "old")
                         (lit "CR-12") (lit "c@x.org") (lit "l@x.org")
                         deadline [] in
  (exists log, run simulated works = Ret (true, log))
  /\ (exists log, run configured fails = Ret (true, log))
  /\ strftime_B_d_Y deadline = lit "March 07, 2026".
Proof.
  intros simulated configured works fails deadline run.
  split; [|split].
  - eexists. unfold run.
    apply (reminder_emails_succeed_with_valid_port simulated works).
    exact I.
  - eexists. unfold run.
    apply (reminder_emails_succeed_with_valid_port configured fails).
    exact I.
  - reflexivity.
Defined.

(** C6 (a defect of the code).  The claim: for every well-formed input
    [send_reminder_emails] returns [True] and appends exactly two entries
    to the log file, both without SMTP credentials and when the SMTP
    session raises.  The code: [send_email] evaluates
    [int(os.getenv("SMTP_PORT", 587))] before it looks at the credentials
    and outside its [try].  With SMTP_PORT set to "smtp" and no
    credentials, the ValueError of [int()] leaves [send_reminder_emails]:
    nothing is returned and no entry is written, whatever the arguments
    of the call. *)
Theorem reminder_emails_raise_on_bad_port :
  let error := lit "invalid literal for int() with base 10: 'smtp'" in
  let env := {| SENDER_EMAIL := None; SENDER_PASSWORD := None;
                SMTP_SERVER := None; SMTP_PORT := PortNotANumber error |} in
  forall (smtp : transport) (now_client now_lawyer log : str)
         (case_number client_email lawyer_email : str)
         (deadline_date : date) (reminder_message : str),
    send_reminder_emails env smtp now_client now_lawyer log case_number
                         client_email lawyer_email deadline_date
                         reminder_message
    = Raise error.
Proof.
  intros error env smtp now_client now_lawyer log case_number client_email
         lawyer_email deadline_date reminder_message.
  unfold send_reminder_emails, send_email. reflexivity.
Qed.

End MailerFacts.

(* ================================================================== *)
(** * Text of an uploaded PDF: properties *)
(* ================================================================== *)

Section ExtractorFacts.
Import PyStr Py Extractor.

(** C7. When the OCR credential is absent and the local, page by page
    extraction yields the empty string, [extract_text_from_pdf] returns
    the empty string and raises nothing, whatever [pdfplumber] and the
    pages did on the way. *)
Theorem no_text_without_ocr_key (ocr_api_key : option str)
        (file : pdf_file) (ocr_response : outcome ocr_json) :
  truthy ocr_api_key = false ->
  local_text file = [] ->
  exists shown,
    extract_text_from_pdf ocr_api_key file ocr_response = Ret ([], shown).
Proof.
  intros Hkey Hlocal. unfold extract_text_from_pdf.
  destruct file as [pages | e].
  - simpl in Hlocal.
    destruct (read_pages pages []) as [text [ [] | e ]];
      simpl in Hlocal; subst text.
    + rewrite Hkey, andb_false_r. eexists. reflexivity.
    + eexists. reflexivity.
  - eexists. reflexivity.
Qed.

(** A scanned document: two pages without a text layer, no OCR key. *)
Lemma no_text_without_ocr_key_witness :
  let file : pdf_file := Ret [Ret None; Ret (Some [])] in
  local_text file = []
  /\ exists shown,
      extract_text_from_pdf None file (Raise (lit "unused"))
      = Ret ([], shown).
Proof.
  intros file. split; [reflexivity|].
  apply no_text_without_ocr_key; reflexivity.
Defined.

End ExtractorFacts.

(* ================================================================== *)
(** * Answers from the language model: properties *)
(* ================================================================== *)

Section GroqFacts.
Import PyStr Py Classifier Groq.

Lemma try_models_first (c : client) (question context_text : str)
      (pre : list str) (m : str) (post : list str) (r : option str) :
  (forall m', In m' pre ->
              exists e, attempt c m' question context_text = Raise e) ->
  attempt c m question context_text = Ret r ->
  try_models c (pre ++ m :: post) question context_text = r.
Proof.
  intros Hpre Hm. induction pre as [|x pre IH]; simpl.
  - rewrite Hm. reflexivity.
  - destruct (Hpre x (or_introl eq_refl)) as [e E]. rewrite E.
    apply IH. intros m' Hin. apply Hpre. right. exact Hin.
Qed.

Lemma try_models_none (c : client) (question context_text : str)
      (ms : list str) :
  (forall m, In m ms ->
             exists e, attempt c m question context_text = Raise e) ->
  try_models c ms question context_text = None.
Proof.
  induction ms as [|x ms IH]; simpl; [reflexivity|].
  intros H. destruct (H x (or_introl eq_refl)) as [e E]. rewrite E.
  apply IH. intros m Hin. apply H. right. exact Hin.
Qed.

(** C8. [ask_groq] goes through the two model identifiers in their fixed
    order and returns the result of the first call that succeeds; it
    returns [None] when there is no client (no credentials) or when every
    call fails; and on [None] the chat handler's assistant message for a
    legal question is exactly the fixed fallback sentence. *)
Theorem answer_generator_fallback :
  models = [lit "llama-3.1-70b-specdec"; lit "llama-3.1-8b-instant"]
  /\ (forall c question context_text pre m post r,
         models = pre ++ m :: post ->
         (forall m', In m' pre ->
                     exists e, attempt c m' question context_text = Raise e) ->
         attempt c m question context_text = Ret r ->
         ask_groq (Some c) question context_text = r)
  /\ (forall groq_api_key connected question context_text,
         truthy groq_api_key = false ->
         ask_groq (groq_client groq_api_key connected) question context_text
         = None)
  /\ (forall c question context_text,
         (forall m, In m models ->
                    exists e, attempt c m question context_text = Raise e) ->
         ask_groq (Some c) question context_text = None)
  /\ (forall groq_client context user_input,
         is_legal_question user_input = true ->
         ask_groq groq_client user_input context = None ->
         chat_answer groq_client context user_input
         = lit "Sorry, I couldn't process this legal question right now.").
Proof.
  split; [reflexivity|].
  split.
  { intros c question context_text pre m post r Hsplit Hpre Hm.
    unfold ask_groq. rewrite Hsplit.
    apply try_models_first; assumption. }
  split.
  { intros groq_api_key connected question context_text Hkey.
    unfold groq_client. rewrite Hkey. reflexivity. }
  split.
  { intros c question context_text Hall. unfold ask_groq.
    apply try_models_none, Hall. }
  intros groq_client context user_input Hlegal Hnone.
  unfold chat_answer. rewrite Hlegal. cbv zeta. rewrite Hnone.
  reflexivity.
Qed.

(** The first model is refused and the second one answers; then both are
    refused and the handler falls back. *)
Lemma answer_generator_fallback_witness :
  let second_only : client :=
    fun m _ => if str_eqb m (lit "llama-3.1-8b-instant")
               then Ret [Some (lit "Bail is a right in bailable offences.")]
               else Raise (lit "model_decommissioned") in
  let down : client := fun _ _ => Raise (lit "503") in
  ask_groq (Some second_only) (lit "is bail a right") (lit "Legal context")
  = Some (lit "Bail is a right in bailable offences.")
  /\ chat_answer (Some down) (lit "Legal context") (lit "is bail a right")
     = lit "Sorry, I couldn't process this legal question right now."
  /\ chat_answer (groq_client None second_only) (lit "Legal context")
                 (lit "is bail a right")
     = lit "Sorry, I couldn't process this legal question right now.".
Proof.
  intros second_only down.
  destruct answer_generator_fallback as [_ [Hfirst [Hkey [Hall Hchat]]]].
  split; [|split].
  - apply (Hfirst second_only _ _ [lit "llama-3.1-70b-specdec"]
                  (lit "llama-3.1-8b-instant") []).
    + reflexivity.
    + intros m' [<- | []]. eexists. reflexivity.
    + reflexivity.
  - apply Hchat.
    + vm_compute. reflexivity.
    + apply Hall. intros m _. eexists. reflexivity.
  - apply Hchat.
    + vm_compute. reflexivity.
    + apply Hkey. reflexivity.
Defined.

End GroqFacts.

(* ================================================================== *)
(** * IPC sections search tool: properties *)
(* ================================================================== *)

Section IpcSearchFacts.
Import PyStr Py IpcSearch.

(** C9. [search_ipc_sections] never raises: it returns a list for every
    store, query and limit.  The list is empty when the query is empty or
    made of whitespace only, when building the vector store raised, and
    when the similarity search raises. *)
Theorem search_never_raises (vector_db : option vector_store)
        (query : str) (top_k : Z) :
  (exists results, search_ipc_sections vector_db query top_k = Ret results)
  /\ (Forall (fun c => isspace c = true) query ->
      search_ipc_sections vector_db query top_k = Ret [])
  /\ (forall e, vector_db = load_vector_db (Raise e) ->
                search_ipc_sections vector_db query top_k = Ret [])
  /\ (forall db e, vector_db = Some db ->
                   similarity_search db query top_k = Raise e ->
                   search_ipc_sections vector_db query top_k = Ret []).
Proof.
  unfold search_ipc_sections.
  split; [|split; [|split]].
  - destruct vector_db as [db|]; [|eexists; reflexivity].
    destruct (store_truth db); [|eexists; reflexivity]. cbn [negb].
    destruct (Classifier.falsy (strip query)); [eexists; reflexivity|].
    destruct (similarity_search db query top_k); eexists; reflexivity.
  - intros Hblank. rewrite (strip_all_space query Hblank).
    destruct vector_db as [db|]; [|reflexivity].
    destruct (store_truth db); reflexivity.
  - intros e ->. reflexivity.
  - intros db e -> Hfail. rewrite Hfail.
    destruct (store_truth db); [|reflexivity]. cbn [negb].
    destruct (Classifier.falsy (strip query)); reflexivity.
Qed.

(** A blank query against a working store, a store that failed to load,
    and a search that raises. *)
Lemma search_never_raises_witness :
  let doc := {| metadata := [(lit "section", lit "378")];
                page_content := lit "Theft" |} in
  let good := {| store_truth := true;
                 similarity_search := fun _ _ => Ret [doc] |} in
  let broken := {| store_truth := true;
                   similarity_search := fun _ _ => Raise (lit "timeout") |} in
  search_ipc_sections (Some good) (lit "   ") 3 = Ret []
  /\ search_ipc_sections (load_vector_db (Raise (lit "no such collection")))
                         (lit "theft") 3 = Ret []
  /\ search_ipc_sections (Some broken) (lit "theft") 3 = Ret []
  /\ search_ipc_sections (Some good) (lit "theft") 3
     = Ret [{| section := Some (lit "378"); section_title := None;
               chapter := None; chapter_title := None;
               content := lit "Theft" |}].
Proof.
  intros doc good broken.
  split; [|split; [|split]].
  - apply (proj1 (proj2 (search_never_raises (Some good) (lit "   ") 3))).
    repeat constructor.
  - apply (proj1 (proj2 (proj2 (search_never_raises
                                  (load_vector_db
                                     (Raise (lit "no such collection")))
                                  (lit "theft") 3)))
             (lit "no such collection")).
    reflexivity.
  - apply (proj2 (proj2 (proj2 (search_never_raises (Some broken)
                                                    (lit "theft") 3)))
             broken (lit "timeout")); reflexivity.
  - reflexivity.
Defined.

End IpcSearchFacts.

(* ================================================================== *)
(** * The topic gate: what decides, and what never does *)
(* ================================================================== *)

Section ClassifierNormalForm.
Import PyStr Classifier.

Lemma lstrip_padding (pre s : str) :
  Forall (fun c => isspace c = true) pre -> lstrip (pre ++ s) = lstrip s.
Proof.
  unfold lstrip. induction 1 as [|c pre Hc _ IH]; simpl; [reflexivity|].
  rewrite Hc. exact IH.
Qed.

Lemma rstrip_padding (s post : str) :
  Forall (fun c => isspace c = true) post -> rstrip (s ++ post) = rstrip s.
Proof.
  intros H. unfold rstrip. rewrite rev_app_distr.
  apply Forall_rev in H.
  change (drop_while isspace (rev post ++ rev s))
    with (lstrip (rev post ++ rev s)).
  rewrite (lstrip_padding _ _ H). reflexivity.
Qed.

Lemma strip_padding (pre s post : str) :
  Forall (fun c => isspace c = true) pre ->
  Forall (fun c => isspace c = true) post ->
  strip (pre ++ s ++ post) = strip s.
Proof.
  intros Hpre Hpost. unfold strip. rewrite (lstrip_padding _ _ Hpre).
  induction s as [|c s IH]; simpl.
  - unfold lstrip. rewrite (drop_while_all isspace post Hpost). reflexivity.
  - unfold lstrip in *. simpl. destruct (isspace c); [exact IH|].
    apply (rstrip_padding (c :: s) post Hpost).
Qed.

Lemma lower_all_space (s : str) :
  Forall (fun c => isspace c = true) s ->
  Forall (fun c => isspace c = true) (lower s).
Proof.
  intros H. unfold lower. apply Forall_map.
  apply Forall_impl with (2 := H).
  intros c Hc. rewrite isspace_lower_char. exact Hc.
Qed.

(** The two tests of the guard amount to one test on the normalized
    text. *)
Lemma guard_normal (question : str) :
  falsy question || (List.length (strip question) <? 3)
  = (List.length (strip (lower question)) <? 3).
Proof.
  rewrite length_strip_lower.
  destruct question; reflexivity.
Qed.

Lemma normal_form_decides (q1 q2 : str) :
  strip (lower q1) = strip (lower q2) ->
  is_legal_question q1 = is_legal_question q2.
Proof.
  intros E. unfold is_legal_question.
  rewrite !guard_normal, E. reflexivity.
Qed.

(** X1. The gate does not see the case of letters: two questions with the
    same lower-cased text get the same answer. *)
Theorem case_is_ignored (q1 q2 : str) :
  lower q1 = lower q2 ->
  is_legal_question q1 = is_legal_question q2.
Proof.
  intros E. apply normal_form_decides. rewrite E. reflexivity.
Qed.

Lemma case_is_ignored_witness :
  is_legal_question (lit "WHAT IS AN FIR") = true
  /\ is_legal_question (lit "Good MORNING") = false.
Proof.
  split.
  - rewrite (case_is_ignored (lit "WHAT IS AN FIR") (lit "what is an fir")
                             eq_refl).
    vm_compute. reflexivity.
  - rewrite (case_is_ignored (lit "Good MORNING") (lit "good morning")
                             eq_refl).
    vm_compute. reflexivity.
Defined.

(** X2. Whitespace before and after a question does not change the
    answer of the gate. *)
Theorem padding_is_ignored (pre question post : str) :
  Forall (fun c => isspace c = true) pre ->
  Forall (fun c => isspace c = true) post ->
  is_legal_question (pre ++ question ++ post) = is_legal_question question.
Proof.
  intros Hpre Hpost. apply normal_form_decides.
  rewrite !lower_app.
  apply strip_padding; apply lower_all_space; assumption.
Qed.

Lemma padding_is_ignored_witness :
  is_legal_question (lit "  " ++ lit "my landlord" ++ ["010"; "009"]%char) = true
  /\ is_legal_question (lit " " ++ lit "hi" ++ lit "   ") = false.
Proof.
  split.
  - rewrite padding_is_ignored by (repeat constructor).
    vm_compute. reflexivity.
  - rewrite padding_is_ignored by (repeat constructor).
    vm_compute. reflexivity.
Defined.

(** Each phrase holds a keyword, and so does each opener but one. *)
Lemma phrases_hold_keywords :
  forall p, In p legal_patterns ->
            exists k, In k legal_keywords /\ occurs_in k p.
Proof.
  assert (forallb (fun p => existsb (fun k => contains k p) legal_keywords)
                  legal_patterns = true) as H by (vm_compute; reflexivity).
  intros p Hp. rewrite forallb_forall in H. specialize (H p Hp).
  apply existsb_exists in H. destruct H as [k [Hk Hc]].
  exists k. split; [exact Hk | apply contains_spec, Hc].
Qed.

Lemma openers_hold_keywords :
  forall s, In s legal_question_starts ->
            s = lit "under which section"
            \/ exists k, In k legal_keywords /\ occurs_in k s.
Proof.
  assert (forallb (fun s => str_eqb s (lit "under which section")
                            || existsb (fun k => contains k s)
                                       legal_keywords)
                  legal_question_starts = true) as H
      by (vm_compute; reflexivity).
  intros s Hs. rewrite forallb_forall in H. specialize (H s Hs).
  apply orb_true_iff in H. destruct H as [H | H].
  - left. apply str_eqb_eq, H.
  - right. apply existsb_exists in H. destruct H as [k [Hk Hc]].
    exists k. split; [exact Hk | apply contains_spec, Hc].
Qed.

(** X3. What the three loops come to: a question is accepted exactly
    when a keyword occurs in its normalized text or this text starts with
    "under which section".  The phrase table and the nine other openers
    never decide, each of them holds a keyword. *)
Theorem accepted_iff_keyword_or_section (question : str) :
  is_legal_question question = true
  <-> (exists k, In k legal_keywords
                 /\ occurs_in k (strip (lower question)))
      \/ begins_with (lit "under which section") (strip (lower question)).
Proof.
  split.
  - unfold is_legal_question.
    destruct (falsy question || _); [discriminate|]. cbv zeta.
    destruct (existsb _ legal_keywords) eqn:K.
    { intros _. left. apply existsb_exists in K.
      destruct K as [k [Hk Hc]]. exists k.
      split; [exact Hk | apply contains_spec, Hc]. }
    destruct (existsb _ legal_patterns) eqn:P.
    { intros _. left. apply existsb_exists in P.
      destruct P as [p [Hp Hc]]. apply contains_spec in Hc.
      destruct (phrases_hold_keywords p Hp) as [k [Hk Hkp]].
      exists k. split; [exact Hk | exact (occurs_in_trans _ _ _ Hkp Hc)]. }
    destruct (existsb _ legal_question_starts) eqn:S; [|discriminate].
    intros _. apply existsb_exists in S. destruct S as [s [Hs Hc]].
    apply startswith_spec in Hc.
    destruct (openers_hold_keywords s Hs) as [-> | [k [Hk Hks]]].
    + right. exact Hc.
    + left. exists k. split; [exact Hk|].
      exact (occurs_in_trans _ _ _ Hks (begins_with_occurs _ _ Hc)).
  - intros [[k [Hk Hocc]] | Hb]; unfold is_legal_question.
    + rewrite (guard_passes question k (keyword_entry k Hk) Hocc).
      cbv zeta.
      assert (existsb (fun w => contains w (strip (lower question)))
                      legal_keywords = true) as K.
      { apply existsb_exists. exists k.
        split; [exact Hk | apply contains_spec, Hocc]. }
      rewrite K. reflexivity.
    + assert (In (lit "under which section") legal_question_starts) as Hs
          by (apply In_by_eval; vm_compute; reflexivity).
      rewrite (guard_passes question _ (start_entry _ Hs)
                            (begins_with_occurs _ _ Hb)).
      cbv zeta.
      destruct (existsb _ legal_keywords); [reflexivity|].
      destruct (existsb _ legal_patterns); [reflexivity|].
      assert (existsb (fun s => startswith (strip (lower question)) s)
                      legal_question_starts = true) as S.
      { apply existsb_exists. exists (lit "under which section").
        split; [exact Hs | apply startswith_spec, Hb]. }
      rewrite S. reflexivity.
Qed.

(** A question accepted through the opener, and one that only repeats
    the opener further inside and is rejected. *)
Lemma accepted_iff_keyword_or_section_witness :
  is_legal_question (lit "Under which section is this?") = true
  /\ is_legal_question (lit "so, under which section is this?") = false.
Proof.
  split.
  - apply (proj2 (accepted_iff_keyword_or_section _)). right.
    exists (lit " is this?"). vm_compute. reflexivity.
  - destruct (is_legal_question (lit "so, under which section is this?"))
             eqn:E; [exfalso | reflexivity].
    apply (proj1 (accepted_iff_keyword_or_section _)) in E.
    destruct E as [[k [Hk Hocc]] | Hb].
    + revert k Hk Hocc. apply none_occurs_by_eval. vm_compute. reflexivity.
    + apply startswith_spec in Hb. vm_compute in Hb. discriminate.
Defined.

End ClassifierNormalForm.

(* ================================================================== *)
(** * Accounts and chat history: what a write leaves alone *)
(* ================================================================== *)

Section StoreFrame.
Import PyStr Store Accounts.

Variable sha256_hexdigest : str -> str.

Lemma find_app_some (f : user_row -> bool) (l l' : list user_row)
      (x : user_row) :
  find f l = Some x -> find f (l ++ l') = Some x.
Proof.
  induction l as [|y l IH]; simpl; [discriminate|].
  destruct (f y); [trivial | exact IH].
Qed.

Lemma username_taken_iff (d : db) (username : str) :
  username_taken d username = true
  <-> exists r, In r (users d) /\ u_username r = username.
Proof.
  unfold username_taken. rewrite existsb_exists.
  split; intros [r [Hr E]]; exists r; split; try exact Hr;
    apply str_eqb_eq; exact E.
Qed.

(** X4. A registration never changes the answer an existing login gets,
    and it changes no answer at all for another username.  An account
    cannot be taken over by registering its name again: when a stored row
    already carries the username, the registration is refused with
    "Username already exists" and the users table stays as it was, so
    that the password offered with it opens nothing that it did not open
    before. *)
Theorem registration_keeps_logins (d : db)
        (username password role : str) (email : option str) :
  let d' := fst (register_user sha256_hexdigest d username password role
                               email) in
  (forall u p answer,
      login_user sha256_hexdigest d u p = Some answer ->
      login_user sha256_hexdigest d' u p = Some answer)
  /\ (forall u p, u <> username ->
                  login_user sha256_hexdigest d' u p
                  = login_user sha256_hexdigest d u p)
  /\ ((exists r, In r (users d) /\ u_username r = username) ->
      snd (register_user sha256_hexdigest d username password role email)
      = UsernameAlreadyExists
      /\ users d' = users d
      /\ forall u p, login_user sha256_hexdigest d' u p
                     = login_user sha256_hexdigest d u p).
Proof.
  unfold register_user.
  destruct (username_taken d username) eqn:T; simpl;
    [repeat split; trivial|].
  split; [|split].
  3: { intros Htaken. apply username_taken_iff in Htaken. congruence. }
  - intros u p answer. unfold login_user. simpl.
    destruct (find _ (users d)) as [r|] eqn:F; [|discriminate].
    rewrite (find_app_some _ _ _ _ F). trivial.
  - intros u p Hu. unfold login_user. simpl.
    destruct (find _ (users d)) as [r|] eqn:F.
    + rewrite (find_app_some _ _ _ _ F). reflexivity.
    + rewrite find_skip.
      * simpl. destruct (str_eqb username u) eqn:E; [|reflexivity].
        apply str_eqb_eq in E. congruence.
      * intros r Hr. apply (List.find_none _ _ F r Hr).
Qed.

(** Usernames of the table are pairwise distinct. *)
Lemma register_user_nodup (d : db) (username password role : str)
      (email : option str) :
  NoDup (map u_username (users d)) ->
  NoDup (map u_username
             (users (fst (register_user sha256_hexdigest d username password
                                        role email)))).
Proof.
  intros H. unfold register_user.
  destruct (username_taken d username) eqn:T; simpl; [exact H|].
  rewrite map_app. simpl.
  apply NoDup_app; [exact H | repeat constructor; simpl; tauto |].
  intros u Hu [<- | []].
  apply in_map_iff in Hu. destruct Hu as [r [E Hr]].
  assert (username_taken d (u_username r) = true) as T'
      by (apply username_taken_iff; eauto).
  congruence.
Qed.

(** X5. Whatever is registered, and in whatever order, no two rows of the
    users table carry the same username, and a login that is answered is
    answered from the one row with that username and digest. *)
Theorem usernames_stay_unique (rs : list registration) :
  let d := register_all sha256_hexdigest init_db rs in
  NoDup (map u_username (users d))
  /\ forall u p role email,
       login_user sha256_hexdigest d u p = Some (role, email) ->
       forall r, In r (users d) -> u_username r = u ->
                 u_password r = sha256_hexdigest p
                 /\ u_role r = role /\ u_email r = email.
Proof.
  cbv zeta.
  assert (forall d0, NoDup (map u_username (users d0)) ->
                     NoDup (map u_username
                                (users (register_all sha256_hexdigest d0
                                                     rs)))) as Hnd.
  { induction rs as [|x rs' IH]; intros d0 H0; [exact H0|].
    simpl. apply IH, register_user_nodup, H0. }
  specialize (Hnd init_db (NoDup_nil _)).
  split; [exact Hnd|].
  intros u p role email Hlogin r Hr Hu.
  unfold login_user in Hlogin.
  destruct (find _ _) as [r0|] eqn:F; [|discriminate].
  apply find_some in F. destruct F as [Hr0 Hf].
  apply andb_true_iff in Hf. destruct Hf as [E1 E2].
  apply str_eqb_eq in E1. apply str_eqb_eq in E2.
  assert (r = r0) as ->.
  { revert Hnd Hr Hr0 Hu E1. generalize (users (register_all
                                                  sha256_hexdigest init_db
                                                  rs)).
    intros l. induction l as [|y l IH]; simpl; [tauto|].
    intros Hnd Hr Hr0 Hu E1. inversion Hnd as [|a l' Hy Hl].
    destruct Hr as [Ey | Hr]; destruct Hr0 as [Ey0 | Hr0].
    - congruence.
    - exfalso. apply Hy, in_map_iff. exists r0.
      split; [congruence | exact Hr0].
    - exfalso. apply Hy, in_map_iff. exists r.
      split; [congruence | exact Hr].
    - apply IH; assumption. }
  inversion Hlogin; subst. unfold make_hash in E2. auto.
Qed.

End StoreFrame.

Section StoreFrameExamples.
Import PyStr Store Accounts.

(** The second registration of "asha" is refused and her login keeps its
    answer; the digest is replaced by a stand-in that reverses its
    input. *)
Lemma registration_keeps_logins_witness :
  let h := @rev ascii in
  let d := fst (register_user h init_db (lit "asha") (lit "s3cret")
                              (lit "civilian") (Some (lit "a@x.org"))) in
  let d' := fst (register_user h d (lit "asha") (lit "other")
                               (lit "lawyer") None) in
  login_user h d' (lit "asha") (lit "s3cret")
  = Some (lit "civilian", Some (lit "a@x.org"))
  /\ login_user h d' (lit "asha") (lit "other") = None.
Proof.
  intros h d d'. split.
  - apply (proj1 (registration_keeps_logins h d (lit "asha") (lit "other")
                                            (lit "lawyer") None)).
    reflexivity.
  - destruct (proj2 (proj2 (registration_keeps_logins
                              h d (lit "asha") (lit "other") (lit "lawyer")
                              None)))
      as [_ [_ Hsame]].
    + eexists. split; [left; reflexivity | reflexivity].
    + unfold d'. rewrite Hsame. reflexivity.
Defined.

Lemma usernames_stay_unique_witness :
  let h := @rev ascii in
  let rs := [{| reg_username := lit "asha"; reg_password := lit "a";
                reg_role := lit "civilian"; reg_email := None |};
             {| reg_username := lit "ravi"; reg_password := lit "b";
                reg_role := lit "lawyer"; reg_email := None |};
             {| reg_username := lit "asha"; reg_password := lit "c";
                reg_role := lit "lawyer"; reg_email := None |}] in
  map u_username (users (register_all h init_db rs))
  = [lit "asha"; lit "ravi"]
  /\ forall r, In r (users (register_all h init_db rs)) ->
               u_username r = lit "asha" -> u_role r = lit "civilian".
Proof.
  intros h rs. split; [reflexivity|].
  intros r Hr Hu.
  apply (proj2 (usernames_stay_unique h rs) (lit "asha") (lit "a")
               (lit "civilian") None eq_refl r Hr Hu).
Defined.

End StoreFrameExamples.

Section HistoryFrame.
Import PyStr Store.

(** Whatever the clock did, loading a conversation returns each of its
    stored rows exactly once, as a message, and no row of another
    conversation. *)
Lemma load_returns_each_row_once (d : db) (X : str) :
  Permutation
    (load_messages_by_conversation_id d X)
    (map message_of_row
         (filter (fun r => str_eqb (h_conversation_id r) X) (history d))).
Proof.
  unfold load_messages_by_conversation_id.
  apply Permutation_map, order_by_timestamp_perm.
Qed.

(** X6. Writing a message into one conversation changes what is loaded
    for no other conversation, whatever the timestamps. *)
Theorem save_leaves_other_conversations (d : db) (now : nat)
        (username role conversation_id : str) (is_user_message : bool)
        (message X : str) :
  X <> conversation_id ->
  load_messages_by_conversation_id
    (save_chat_message d now username role conversation_id is_user_message
                       message) X
  = load_messages_by_conversation_id d X.
Proof.
  intros Hne. unfold load_messages_by_conversation_id, save_chat_message.
  simpl. rewrite filter_app. simpl.
  destruct (str_eqb conversation_id X) eqn:E.
  - apply str_eqb_eq in E. congruence.
  - rewrite app_nil_r. reflexivity.
Qed.

Lemma save_leaves_other_conversations_witness :
  let d := save_chat_message init_db 9 (lit "asha") (lit "civilian")
                             (lit "c1") true (lit "first") in
  load_messages_by_conversation_id
    (save_chat_message d 3 (lit "ravi") (lit "lawyer") (lit "c2") true
                       (lit "second")) (lit "c1")
  = [{| role := lit "user"; content := lit "first" |}].
Proof.
  intros d.
  rewrite save_leaves_other_conversations by discriminate.
  reflexivity.
Defined.

End HistoryFrame.

(* ================================================================== *)
(** * The session: login and the transcript *)
(* ================================================================== *)

Section SessionFacts.
Import PyStr Py Store Session.

Variable sha256_hexdigest : str -> str.

(** X7. Nobody is logged in without a stored row that carries the
    username, the digest of the password and the role selected on the
    first page; the fields may not be empty, and the session then holds
    that username and a new conversation id. *)
Theorem login_needs_matching_row (s : session) (d : db)
        (username password uuid : str) :
  logged_in s = false ->
  logged_in (fst (login_click sha256_hexdigest s d username password uuid))
  = true ->
  let s' := fst (login_click sha256_hexdigest s d username password uuid) in
  username <> [] /\ password <> []
  /\ (exists row, In row (users d)
                  /\ u_username row = username
                  /\ u_password row = sha256_hexdigest password
                  /\ ss_role s = Some (u_role row))
  /\ ss_role s' = ss_role s
  /\ ss_username s' = Some username
  /\ current_conversation_id s' = Some uuid.
Proof.
  intros Hout. unfold login_click. rewrite Hout.
  destruct (ss_role s) as [[|c r]|] eqn:R; simpl;
    try (rewrite Hout; discriminate).
  destruct username as [|a u]; simpl; [rewrite Hout; discriminate|].
  destruct password as [|b p]; simpl; [rewrite Hout; discriminate|].
  unfold login_user.
  destruct (find _ (users d)) as [row|] eqn:F; simpl;
    [|rewrite Hout; discriminate].
  destruct (str_eqb (u_role row) (c :: r)) eqn:E; simpl;
    [|rewrite Hout; discriminate].
  intros _. apply find_some in F. destruct F as [Hin Hf].
  apply andb_true_iff in Hf. destruct Hf as [E1 E2].
  apply str_eqb_eq in E1. apply str_eqb_eq in E2. apply str_eqb_eq in E.
  repeat split; try discriminate; try exact R.
  exists row. rewrite E. auto.
Qed.

(** X8. Registering and then logging in.  On the login page of a role,
    with a username not yet taken and non-empty fields, the Register
    button stores the account and reports success; the Login button then
    logs the user in under that role, with this username, the e-mail
    address given and [uuid] as the current conversation id. *)
Theorem register_then_login (s : session) (d : db) (role : str)
        (username password email uuid : str) :
  logged_in s = false ->
  ss_role s = Some role -> role <> [] ->
  username <> [] -> password <> [] ->
  (forall r, In r (users d) -> u_username r <> username) ->
  let d' := fst (register_click sha256_hexdigest s d username password
                                email) in
  snd (register_click sha256_hexdigest s d username password email)
  = Some RegistrationSuccessful
  /\ login_click sha256_hexdigest s d' username password uuid
     = ({| logged_in := true; ss_role := Some role;
           ss_username := Some username; user_email := Some email;
           messages := messages s; current_conversation_id := Some uuid;
           show_reminder_form := show_reminder_form s;
           show_reminders := show_reminders s |},
        false).
Proof.
  intros Hout Hrole Hr Hu Hp Hfresh.
  unfold register_click, login_click. rewrite Hout, Hrole.
  destruct role as [|c r]; [congruence|].
  destruct username as [|a u]; [congruence|].
  destruct password as [|b p]; [congruence|].
  cbn [Classifier.falsy orb].
  unfold register_user.
  rewrite (username_taken_false d (a :: u) Hfresh).
  cbn [fst snd]. split; [reflexivity|].
  unfold login_user. cbn [users].
  rewrite find_skip.
  - do 3 (cbn [find u_username u_password u_role u_email andb make_hash];
          rewrite ?str_eqb_refl).
    destruct email as [|e em]; reflexivity.
  - intros row Hrow. apply andb_false_iff. left.
    destruct (str_eqb (u_username row) (a :: u)) eqn:E; [|reflexivity].
    apply str_eqb_eq in E. exfalso. exact (Hfresh row Hrow E).
Qed.

End SessionFacts.

Section TranscriptFacts.
Import PyStr Py Store Session.

Lemma load_unused (d : db) (cid : str) :
  unused_id d cid -> load_messages_by_conversation_id d cid = [].
Proof.
  intros H. unfold load_messages_by_conversation_id.
  assert (filter (fun r => str_eqb (h_conversation_id r) cid) (history d)
          = []) as ->; [|reflexivity].
  unfold unused_id in H. induction (history d) as [|h l IH]; simpl;
    [reflexivity|].
  destruct (str_eqb (h_conversation_id h) cid) eqn:E.
  - apply str_eqb_eq in E. exfalso. apply (H h); simpl; auto.
  - apply IH. intros x Hx. apply H. right. exact Hx.
Qed.

(** One INSERT at a clock reading that is not earlier than the rows
    stored for its conversation adds one message at the end of this
    conversation. *)
Lemma load_after_save (d : db) (now : nat) (u r cid : str) (b : bool)
      (m : str) :
  not_after d cid now ->
  load_messages_by_conversation_id (save_chat_message d now u r cid b m) cid
  = load_messages_by_conversation_id d cid
    ++ [{| role := if b then lit "user" else lit "assistant";
           content := m |}].
Proof.
  unfold not_after. intros Hclock.
  unfold load_messages_by_conversation_id, save_chat_message. simpl.
  rewrite filter_app. simpl. rewrite str_eqb_refl.
  rewrite order_by_timestamp_app.
  - rewrite map_app. reflexivity.
  - simpl. auto.
  - intros a x Ha [<- | []]. simpl.
    apply filter_In in Ha. destruct Ha as [Ha Ea].
    apply str_eqb_eq in Ea. exact (Hclock a Ha Ea).
Qed.

Lemma not_after_save (d : db) (t1 t2 : nat) (u r cid : str) (b : bool)
      (m : str) :
  not_after d cid t1 -> t1 <= t2 ->
  not_after (save_chat_message d t1 u r cid b m) cid t2.
Proof.
  unfold not_after. intros H Hle h Hin Hc. simpl in Hin.
  apply in_app_or in Hin. destruct Hin as [Hin | [<- | []]].
  - specialize (H h Hin Hc). lia.
  - simpl. exact Hle.
Qed.

(** X9. A chat turn keeps the transcript in step with the store.  When
    the messages on screen are those stored for the current conversation,
    the INSERT of the question happens at a clock reading not earlier than
    the rows stored for the conversation written to, the INSERT of the
    answer not earlier than that of the question, and the id drawn for a
    session without conversation is new, then after the turn the messages
    on screen are again exactly what loading the conversation returns.
    Rows of other conversations may carry any timestamps, and the stored
    rows need not be in timestamp order. *)
Theorem chat_turn_keeps_in_sync (groq_client : option Groq.client)
        (uuid : str) (now_user now_assistant : nat) (s : session) (d : db)
        (user_input : str) :
  in_sync s d ->
  not_after d (conversation_in_use s uuid) now_user ->
  now_user <= now_assistant ->
  uuid <> [] ->
  (truthy (current_conversation_id s) = false -> unused_id d uuid) ->
  in_sync (fst (chat_turn groq_client uuid now_user now_assistant s d
                          user_input))
          (snd (chat_turn groq_client uuid now_user now_assistant s d
                          user_input)).
Proof.
  intros Hsync Hclock Hle Huuid Hfresh. unfold chat_turn.
  destruct (logged_in s); simpl; [|exact Hsync].
  destruct (ss_role s) as [r|]; [|exact Hsync].
  destruct (ss_username s) as [u|]; [|exact Hsync].
  destruct (dashboard_context r) as [context|]; [|exact Hsync].
  destruct (Classifier.falsy user_input); [exact Hsync|].
  cbn [fst snd].
  set (answer := Groq.chat_answer groq_client context user_input).
  set (cid := conversation_in_use s uuid) in *.
  assert (messages s = load_messages_by_conversation_id d cid
          /\ exists c0 r0, cid = c0 :: r0) as [Hmsg [c0 [r0 Hcid]]].
  { unfold in_sync in Hsync. unfold cid, conversation_in_use.
    destruct (current_conversation_id s) as [[|c0 r0]|].
    - rewrite (load_unused d uuid (Hfresh eq_refl)).
      split; [exact Hsync|].
      destruct uuid as [|c1 r1]; [congruence | eauto].
    - split; [exact Hsync | eauto].
    - rewrite (load_unused d uuid (Hfresh eq_refl)).
      split; [exact Hsync|].
      destruct uuid as [|c1 r1]; [congruence | eauto]. }
  pose proof (not_after_save d now_user now_assistant u r cid true
                             user_input Hclock Hle) as H2.
  unfold in_sync. cbn [current_conversation_id messages].
  rewrite Hcid. rewrite <- Hcid.
  rewrite (load_after_save _ now_assistant u r cid false answer H2).
  rewrite (load_after_save d now_user u r cid true user_input Hclock).
  rewrite Hmsg, <- app_assoc. reflexivity.
Qed.

(** X10. The other ways into a conversation keep the transcript in step
    as well: logging in and New Chat with a new id, a click on a stored
    conversation, logging out. *)
Theorem entry_points_keep_in_sync (sha256_hexdigest : str -> str)
        (s : session) (d : db) :
  in_sync s d ->
  (forall username password uuid,
      messages s = [] -> uuid <> [] -> unused_id d uuid ->
      in_sync (fst (login_click sha256_hexdigest s d username password
                                uuid)) d)
  /\ (forall uuid, uuid <> [] -> unused_id d uuid ->
                   in_sync (new_chat s uuid) d)
  /\ (forall cid, cid <> [] -> in_sync (open_conversation s d cid) d)
  /\ in_sync (logout s) d.
Proof.
  intros Hsync. split; [|split; [|split]].
  - intros username password uuid Hempty Huuid Hfresh.
    unfold login_click.
    destruct (logged_in s); [exact Hsync|].
    destruct (ss_role s) as [[|c r]|]; try exact Hsync.
    destruct (Classifier.falsy username || Classifier.falsy password);
      [exact Hsync|].
    destruct (login_user _ d username password) as [[stored email]|];
      [|exact Hsync].
    destruct (str_eqb stored (c :: r)); [|exact Hsync].
    unfold in_sync. cbn [fst current_conversation_id messages].
    destruct uuid as [|c1 r1]; [congruence|].
    rewrite (load_unused d _ Hfresh). exact Hempty.
  - intros uuid Huuid Hfresh. unfold new_chat.
    destruct (logged_in s); [|exact Hsync].
    unfold in_sync. cbn [current_conversation_id messages].
    destruct uuid as [|c1 r1]; [congruence|].
    rewrite (load_unused d _ Hfresh). reflexivity.
  - intros cid Hcid. unfold open_conversation.
    destruct (logged_in s); [|exact Hsync].
    unfold in_sync. cbn [current_conversation_id messages].
    destruct cid as [|c1 r1]; [congruence | reflexivity].
  - unfold logout. destruct (logged_in s); [reflexivity | exact Hsync].
Qed.

End TranscriptFacts.

(* ================================================================== *)
(** * Case reminders: the listing and the ids *)
(* ================================================================== *)

Section ReminderOrder.
Import PyStr Py Reminders.

Lemma code_inj (x y : ascii) : code x = code y -> x = y.
Proof.
  unfold code. intros E.
  rewrite <- (ascii_N_embedding x), <- (ascii_N_embedding y), E.
  reflexivity.
Qed.

Lemma str_compare_refl (a : str) : str_compare a a = Eq.
Proof.
  induction a as [|x a IH]; simpl; [reflexivity|].
  rewrite N.compare_refl. exact IH.
Qed.

Lemma str_compare_antisym (a b : str) :
  str_compare b a = CompOpp (str_compare a b).
Proof.
  revert b. induction a as [|x a IH]; intros [|y b]; simpl;
    try reflexivity.
  rewrite (N.compare_antisym (code x) (code y)).
  destruct (N.compare (code x) (code y)); simpl; auto.
Qed.

Lemma str_leb_total (a b : str) : str_leb a b = false -> str_leb b a = true.
Proof.
  unfold str_leb. rewrite (str_compare_antisym a b).
  destruct (str_compare a b); simpl; congruence.
Qed.

Lemma str_leb_trans (a b c : str) :
  str_leb a b = true -> str_leb b c = true -> str_leb a c = true.
Proof.
  unfold str_leb. revert b c.
  induction a as [|x a IH]; intros [|y b] [|z c]; simpl;
    try reflexivity; try discriminate.
  destruct (N.compare_spec (code x) (code y));
    destruct (N.compare_spec (code y) (code z));
    destruct (N.compare_spec (code x) (code z));
    try reflexivity; try discriminate; try (exfalso; lia); try congruence.
  apply IH.
Qed.

Lemma str_compare_blocks (a1 a2 b1 b2 : str) :
  List.length a1 = List.length a2 ->
  str_compare (a1 ++ b1) (a2 ++ b2)
  = match str_compare a1 a2 with
    | Eq => str_compare b1 b2
    | c => c
    end.
Proof.
  revert a2. induction a1 as [|x a1 IH]; intros [|y a2]; simpl;
    try discriminate; [reflexivity|].
  intros E. injection E as E.
  destruct (N.compare (code x) (code y)); auto.
Qed.

(** ** The listing is sorted *)

Lemma insert_by_deadline_Forall (P : reminder -> Prop) (r : reminder)
      (l : list reminder) :
  P r -> Forall P l -> Forall P (insert_by_deadline r l).
Proof.
  intros Hr. induction 1 as [|x l Hx Hl IH]; simpl.
  - repeat constructor. exact Hr.
  - destruct (str_leb _ _); repeat constructor; assumption.
Qed.

Lemma insert_by_deadline_sorted (r : reminder) (l : list reminder) :
  StronglySorted not_later l ->
  StronglySorted not_later (insert_by_deadline r l).
Proof.
  induction 1 as [|x l Hs IH Hx]; simpl.
  - repeat constructor.
  - destruct (str_leb (rm_deadline_date r) (rm_deadline_date x)) eqn:E.
    + constructor; [constructor; assumption|].
      constructor; [exact E|].
      apply Forall_impl with (2 := Hx). intros y Hy.
      exact (str_leb_trans _ _ _ E Hy).
    + constructor; [exact IH|].
      apply insert_by_deadline_Forall; [|exact Hx].
      apply str_leb_total, E.
Qed.

Lemma order_by_deadline_sorted (l : list reminder) :
  StronglySorted not_later (order_by_deadline l).
Proof.
  induction l as [|r l IH]; simpl; [constructor|].
  apply insert_by_deadline_sorted, IH.
Qed.

Lemma insert_by_deadline_front (r : reminder) (l : list reminder) :
  Forall (not_later r) l -> insert_by_deadline r l = r :: l.
Proof.
  destruct 1 as [|x l Hx _]; simpl; [reflexivity|].
  rewrite Hx. reflexivity.
Qed.

Lemma filter_insert_kept (p : reminder -> bool) (r : reminder)
      (l : list reminder) :
  StronglySorted not_later l ->
  p r = true ->
  filter p (insert_by_deadline r l) = insert_by_deadline r (filter p l).
Proof.
  intros Hs Hp. induction Hs as [|x l Hs IH Hx]; simpl.
  - rewrite Hp. reflexivity.
  - destruct (str_leb (rm_deadline_date r) (rm_deadline_date x)) eqn:E;
      simpl.
    + rewrite Hp. destruct (p x); simpl.
      * rewrite E. reflexivity.
      * symmetry. apply insert_by_deadline_front.
        rewrite Forall_forall in *. intros y Hy.
        apply filter_In in Hy. destruct Hy as [Hy _].
        exact (str_leb_trans _ _ _ E (Hx y Hy)).
    + destruct (p x); simpl; [rewrite E|]; rewrite IH; reflexivity.
Qed.

Lemma filter_insert_dropped (p : reminder -> bool) (r : reminder)
      (l : list reminder) :
  p r = false -> filter p (insert_by_deadline r l) = filter p l.
Proof.
  intros Hp. induction l as [|x l IH]; simpl.
  - rewrite Hp. reflexivity.
  - destruct (str_leb _ _); simpl.
    + rewrite Hp. reflexivity.
    + rewrite IH. reflexivity.
Qed.

Lemma order_by_deadline_filter (p : reminder -> bool) (l : list reminder) :
  order_by_deadline (filter p l) = filter p (order_by_deadline l).
Proof.
  induction l as [|r l IH]; simpl; [reflexivity|].
  destruct (p r) eqn:Hp; simpl.
  - rewrite IH. symmetry.
    apply filter_insert_kept; [apply order_by_deadline_sorted | exact Hp].
  - rewrite IH. symmetry. apply filter_insert_dropped, Hp.
Qed.

(** X11. Deleting a reminder takes the reminders with that id out of the
    listing and leaves all others, in the order they were listed in. *)
Theorem delete_removes_one_line (t : table) (reminder_id : nat) :
  get_all_reminders (fst (delete_reminder (Ret tt) t reminder_id))
  = filter (fun r => negb (rm_id r =? reminder_id)) (get_all_reminders t).
Proof.
  unfold get_all_reminders, delete_reminder. simpl.
  apply order_by_deadline_filter.
Qed.

End ReminderOrder.

Section ReminderIds.
Import PyStr Py Reminders.

Lemma apply_operation_ids (t : table) (o : operation) :
  ids_in_range t -> ids_in_range (apply_operation t o).
Proof.
  intros [Hnd Hle]. destruct o as [now c ce le dd m | i]; simpl.
  - split; simpl.
    + rewrite map_app. simpl.
      apply NoDup_app; [exact Hnd | repeat constructor; simpl; tauto |].
      intros i Hi [<- | []].
      apply in_map_iff in Hi. destruct Hi as [r [E Hr]].
      rewrite Forall_forall in Hle. specialize (Hle r Hr). lia.
    + apply Forall_app. split.
      * apply Forall_impl with (2 := Hle). intros r Hr. lia.
      * constructor; [simpl; lia | constructor].
  - split; simpl.
    + clear Hle. induction (rows t) as [|r l IH]; simpl; [constructor|].
      inversion Hnd as [|? ? Hr Hl]; subst.
      destruct (negb (rm_id r =? i)); simpl; [|auto].
      constructor; [|auto].
      intros Hin. apply Hr. apply in_map_iff in Hin.
      destruct Hin as [x [E Hx]]. apply filter_In in Hx.
      apply in_map_iff. exists x. tauto.
    + rewrite Forall_forall in *. intros r Hr.
      apply filter_In in Hr. apply Hle, Hr.
Qed.

Lemma last_id_grows (t : table) (o : operation) :
  last_id t <= last_id (apply_operation t o).
Proof. destruct o; simpl; lia. Qed.

Lemma absent_id_stays_absent (ops : list operation) (t : table) (i : nat) :
  ids_in_range t -> i <= last_id t -> ~ In i (map rm_id (rows t)) ->
  ~ In i (map rm_id (rows (run t ops))).
Proof.
  revert t. induction ops as [|o ops IH]; intros t Hinv Hi Habs;
    [exact Habs|].
  change (run t (o :: ops)) with (run (apply_operation t o) ops).
  apply IH.
  - apply apply_operation_ids, Hinv.
  - pose proof (last_id_grows t o). lia.
  - destruct o as [now c ce le dd m | j]; simpl.
    + rewrite map_app, in_app_iff. simpl. intros [H | [H | []]]; [tauto|lia].
    + intros H. apply Habs. apply in_map_iff in H.
      destruct H as [x [E Hx]]. apply filter_In in Hx.
      apply in_map_iff. exists x. tauto.
Qed.

(** X12. Ids of reminders.  After any sequence of savings and deletions,
    no two reminders of the table have the same id, so that a deletion by
    id removes one reminder at most; and an id that was given and whose
    reminder is gone is never given again. *)
Theorem reminder_ids_are_never_reused (before after : list operation) :
  NoDup (map rm_id (rows (run empty (before ++ after))))
  /\ forall i, i <= last_id (run empty before) ->
               ~ In i (map rm_id (rows (run empty before))) ->
               ~ In i (map rm_id (rows (run empty (before ++ after)))).
Proof.
  assert (forall ops t, ids_in_range t -> ids_in_range (run t ops)) as Hrun.
  { induction ops as [|o ops IH]; intros t Ht; [exact Ht|].
    apply (IH (apply_operation t o)), apply_operation_ids, Ht. }
  assert (ids_in_range empty) as H0 by (split; constructor).
  split.
  - apply (Hrun _ _ H0).
  - intros i Hi Habs. unfold run. rewrite fold_left_app.
    apply absent_id_stays_absent; [apply Hrun, H0 | exact Hi | exact Habs].
Qed.

(** Reminder 1 is deleted; the next reminder gets id 3, not 1. *)
Lemma reminder_ids_are_never_reused_witness :
  let day := {| Mailer.year := 2026; Mailer.month_of := Mailer.May;
                Mailer.day := 4 |} in
  let save := SaveReminder 0 (lit "CR-1") (lit "c@x.org") (lit "l@x.org")
                           day [] in
  map rm_id (rows (run empty ([save; save; DeleteReminder 1] ++ [save])))
  = [2; 3]
  /\ ~ In 1 (map rm_id
                 (rows (run empty ([save; save; DeleteReminder 1]
                                     ++ [save])))).
Proof.
  intros day save. split; [reflexivity|].
  apply (proj2 (reminder_ids_are_never_reused
                  [save; save; DeleteReminder 1] [save]) 1).
  - simpl. lia.
  - simpl. intros [H | []]. discriminate.
Defined.

End ReminderIds.

Section ReminderDates.
Import PyStr Py Reminders.

Lemma comparison_eqb_eq (a b : comparison) :
  comparison_eqb a b = true -> a = b.
Proof. destruct a, b; simpl; congruence. Qed.

(** Two digits compare as the numbers they print. *)
Lemma two_digits_compare (a b : nat) :
  a < 100 -> b < 100 ->
  List.length (Mailer.two_digits a) = 2
  /\ str_compare (Mailer.two_digits a) (Mailer.two_digits b)
     = Nat.compare a b.
Proof.
  assert (forallb (fun a =>
            (List.length (Mailer.two_digits a) =? 2)
            && forallb (fun b =>
                 comparison_eqb
                   (str_compare (Mailer.two_digits a) (Mailer.two_digits b))
                   (Nat.compare a b))
                 (seq 0 100))
            (seq 0 100) = true) as H by (vm_compute; reflexivity).
  intros Ha Hb. rewrite forallb_forall in H.
  specialize (H a (proj2 (in_seq _ _ _) (conj (Nat.le_0_l a) Ha))).
  apply andb_true_iff in H. destruct H as [H1 H2].
  split; [apply Nat.eqb_eq, H1|].
  rewrite forallb_forall in H2.
  apply comparison_eqb_eq, H2, in_seq. lia.
Qed.

(** A year of four digits prints as its century followed by its last two
    digits. *)
Lemma four_digit_year (y : nat) :
  1000 <= y -> y / 100 < 100 ->
  Mailer.decimal y
  = Mailer.two_digits (y / 100) ++ Mailer.two_digits (y mod 100).
Proof.
  assert (forallb (fun y =>
            str_eqb (Mailer.decimal y)
                    (Mailer.two_digits (y / 100)
                     ++ Mailer.two_digits (y mod 100)))
            (seq 1000 (90 * 100)) = true) as H by (vm_compute; reflexivity).
  intros H1 H2. rewrite forallb_forall in H.
  apply str_eqb_eq, H, in_seq.
  pose proof (Nat.div_mod_eq y 100) as Ey.
  pose proof (Nat.mod_upper_bound y 100 ltac:(discriminate)) as My.
  lia.
Qed.

Lemma century_compare (a b : nat) :
  match Nat.compare (a / 100) (b / 100) with
  | Eq => Nat.compare (a mod 100) (b mod 100)
  | c => c
  end = Nat.compare a b.
Proof.
  pose proof (Nat.div_mod_eq a 100) as Ea.
  pose proof (Nat.div_mod_eq b 100) as Eb.
  pose proof (Nat.mod_upper_bound a 100 ltac:(discriminate)) as Ma.
  pose proof (Nat.mod_upper_bound b 100 ltac:(discriminate)) as Mb.
  destruct (Nat.compare_spec (a / 100) (b / 100));
    destruct (Nat.compare_spec (a mod 100) (b mod 100));
    destruct (Nat.compare_spec a b);
    try reflexivity; exfalso; lia.
Qed.

Lemma month_number_small (m : Mailer.month) : month_number m < 100.
Proof. destruct m; simpl; lia. Qed.

Lemma strftime_compare (a b : Mailer.date) :
  calendar_date a -> calendar_date b ->
  str_compare (strftime_Y_m_d a) (strftime_Y_m_d b) = date_compare a b.
Proof.
  intros [Ha1 [Ha2 Ha3]] [Hb1 [Hb2 Hb3]].
  unfold strftime_Y_m_d, date_compare.
  rewrite (four_digit_year _ Ha1 Ha2), (four_digit_year _ Hb1 Hb2).
  rewrite <- (century_compare (Mailer.year a) (Mailer.year b)).
  pose proof (Nat.mod_upper_bound (Mailer.year a) 100 ltac:(discriminate))
    as Ma.
  pose proof (Nat.mod_upper_bound (Mailer.year b) 100 ltac:(discriminate))
    as Mb.
  destruct (two_digits_compare (Mailer.year a / 100) (Mailer.year b / 100))
    as [L1 C1]; [lia | lia |].
  destruct (two_digits_compare (Mailer.year b / 100) (Mailer.year a / 100))
    as [L1' _]; [lia | lia |].
  destruct (two_digits_compare (Mailer.year a mod 100)
                               (Mailer.year b mod 100))
    as [L2 C2]; [lia | lia |].
  destruct (two_digits_compare (Mailer.year b mod 100)
                               (Mailer.year a mod 100))
    as [L2' _]; [lia | lia |].
  destruct (two_digits_compare (month_number (Mailer.month_of a))
                               (month_number (Mailer.month_of b)))
    as [L3 C3]; [apply month_number_small | apply month_number_small |].
  destruct (two_digits_compare (month_number (Mailer.month_of b))
                               (month_number (Mailer.month_of a)))
    as [L3' _]; [apply month_number_small | apply month_number_small |].
  destruct (two_digits_compare (Mailer.day a) (Mailer.day b))
    as [_ C4]; [lia | lia |].
  rewrite <- !app_assoc.
  rewrite str_compare_blocks by congruence. rewrite C1.
  destruct (Nat.compare (Mailer.year a / 100) (Mailer.year b / 100));
    try reflexivity.
  rewrite str_compare_blocks by congruence. rewrite C2.
  destruct (Nat.compare (Mailer.year a mod 100) (Mailer.year b mod 100));
    try reflexivity.
  rewrite (str_compare_blocks (lit "-") (lit "-")) by reflexivity.
  cbn [str_compare lit list_ascii_of_string]. rewrite N.compare_refl.
  rewrite str_compare_blocks by congruence. rewrite C3.
  destruct (Nat.compare (month_number (Mailer.month_of a))
                        (month_number (Mailer.month_of b)));
    try reflexivity.
  rewrite (str_compare_blocks (lit "-") (lit "-")) by reflexivity.
  cbn [str_compare lit list_ascii_of_string]. rewrite N.compare_refl.
  exact C4.
Qed.

(** X13. The deadline is stored as text, and the text order of two
    stored deadlines is the calendar order of the dates: comparing
    "%Y-%m-%d" strings character by character compares years, then
    months, then days. *)
Theorem stored_deadlines_compare_as_dates (a b : Mailer.date) :
  calendar_date a -> calendar_date b ->
  str_compare (strftime_Y_m_d a) (strftime_Y_m_d b) = date_compare a b.
Proof. exact (strftime_compare a b). Qed.

Lemma stored_deadlines_compare_as_dates_witness :
  let a := {| Mailer.year := 2026; Mailer.month_of := Mailer.December;
              Mailer.day := 31 |} in
  let b := {| Mailer.year := 2027; Mailer.month_of := Mailer.January;
              Mailer.day := 1 |} in
  strftime_Y_m_d a = lit "2026-12-31"
  /\ strftime_Y_m_d b = lit "2027-01-01"
  /\ str_compare (strftime_Y_m_d a) (strftime_Y_m_d b) = Lt.
Proof.
  intros a b. split; [reflexivity | split; [reflexivity|]].
  rewrite (stored_deadlines_compare_as_dates a b).
  - reflexivity.
  - unfold calendar_date. simpl. lia.
  - unfold calendar_date. simpl. lia.
Defined.

Lemma sorted_later_in_list (l1 l2 : list reminder) (x : reminder) :
  StronglySorted not_later (l1 ++ x :: l2) -> Forall (not_later x) l2.
Proof.
  induction l1 as [|y l1 IH]; simpl; intros H;
    inversion H as [|? ? Hs Hx]; subst; auto.
Qed.

(** X14. The listing of reminders is in calendar order of the deadlines:
    a reminder is never listed before one whose deadline is an earlier
    day. *)
Theorem reminders_listed_by_deadline (t : table)
        (l1 l2 l3 : list reminder) (r1 r2 : reminder)
        (d1 d2 : Mailer.date) :
  get_all_reminders t = l1 ++ r1 :: l2 ++ r2 :: l3 ->
  rm_deadline_date r1 = strftime_Y_m_d d1 ->
  rm_deadline_date r2 = strftime_Y_m_d d2 ->
  calendar_date d1 -> calendar_date d2 ->
  date_compare d1 d2 <> Gt.
Proof.
  intros Hlist E1 E2 Hd1 Hd2.
  pose proof (order_by_deadline_sorted (rows t)) as Hs.
  unfold get_all_reminders in Hlist. rewrite Hlist in Hs.
  apply sorted_later_in_list in Hs. rewrite Forall_forall in Hs.
  assert (In r2 (l2 ++ r2 :: l3)) as Hin
      by (apply in_or_app; right; left; reflexivity).
  specialize (Hs r2 Hin).
  unfold not_later, str_leb in Hs. rewrite E1, E2 in Hs.
  rewrite (strftime_compare d1 d2 Hd1 Hd2) in Hs.
  intros E. rewrite E in Hs. discriminate.
Qed.

End ReminderDates.

(* ================================================================== *)
(** * The reminder form *)
(* ================================================================== *)

Section ReminderForm.
Import PyStr Py Mailer Reminders.

Variable env : environ.
Variable smtp : transport.
Variable now : nat.
Variable now_client now_lawyer : str.
Variable t : table.
Variable log : str.
Variable show_reminder_form : bool.
Variable case_number client_email lawyer_email : str.
Variable deadline_date : date.
Variable reminder_message : str.

Lemma truthy_field (s : str) : s <> [] -> Classifier.falsy s = false.
Proof. destruct s; [congruence | reflexivity]. Qed.

Lemma send_reminder_emails_port (p : port_setting) :
  SMTP_PORT env = p ->
  send_reminder_emails env smtp now_client now_lawyer log case_number
                       client_email lawyer_email deadline_date
                       reminder_message
  = match p with
    | PortNotANumber error => Raise error
    | _ =>
        Ret (true,
             log
             ++ entry client_email (client_subject case_number)
                      (client_body case_number
                                   (strftime_B_d_Y deadline_date)
                                   reminder_message)
                      now_client
             ++ entry lawyer_email (lawyer_subject case_number)
                      (lawyer_body case_number
                                   (strftime_B_d_Y deadline_date)
                                   client_email reminder_message)
                      now_lawyer)
    end.
Proof.
  intros Hp. unfold send_reminder_emails.
  destruct p as [| n | error].
  - rewrite !send_email_ok by (rewrite Hp; exact I). cbn [bind].
    rewrite !send_email_ok by (rewrite Hp; exact I). cbn [bind andb].
    rewrite <- app_assoc. reflexivity.
  - rewrite !send_email_ok by (rewrite Hp; exact I). cbn [bind].
    rewrite !send_email_ok by (rewrite Hp; exact I). cbn [bind andb].
    rewrite <- app_assoc. reflexivity.
  - unfold send_email. rewrite Hp. reflexivity.
Qed.

(** X15. Nothing happens behind an incomplete form or a failing store:
    when the case number or one of the two addresses is empty, or when
    the INSERT raises, the table and the log file are left as they were
    and the form stays as it is, under a notice other than success. *)
Theorem nothing_sent_unless_saved (storage : outcome unit) :
  case_number = [] \/ client_email = [] \/ lawyer_email = []
  \/ (exists e, storage = Raise e) ->
  exists notice,
    submit_reminder env smtp storage now now_client now_lawyer t log
                    show_reminder_form case_number client_email
                    lawyer_email deadline_date reminder_message
    = (t, Ret (log, show_reminder_form, notice))
    /\ notice <> ReminderSavedAndSent.
Proof.
  unfold submit_reminder.
  intros [-> | [-> | [-> | [e ->]]]].
  - exists FillInRequiredFields. split; [reflexivity | discriminate].
  - exists FillInRequiredFields. rewrite andb_false_r.
    split; [reflexivity | discriminate].
  - exists FillInRequiredFields. rewrite andb_false_r.
    split; [reflexivity | discriminate].
  - destruct (negb _ && negb _ && negb _).
    + exists FailedToSaveReminder. split; [reflexivity | discriminate].
    + exists FillInRequiredFields. split; [reflexivity | discriminate].
Qed.

(** X16. A complete form over a working store and a well-formed
    configuration stores one reminder, with the next id and the deadline
    as "%Y-%m-%d" text, appends the client's and the lawyer's entry to
    the log file, closes the form and reports success. *)
Theorem complete_form_saves_and_sends :
  case_number <> [] -> client_email <> [] -> lawyer_email <> [] ->
  port_well_formed (SMTP_PORT env) ->
  submit_reminder env smtp (Ret tt) now now_client now_lawyer t log
                  show_reminder_form case_number client_email lawyer_email
                  deadline_date reminder_message
  = ({| rows := rows t ++ [{| rm_id := S (last_id t);
                              rm_case_number := case_number;
                              rm_client_email := client_email;
                              rm_lawyer_email := lawyer_email;
                              rm_deadline_date :=
                                strftime_Y_m_d deadline_date;
                              rm_message := reminder_message;
                              rm_created_at := now |}];
        last_id := S (last_id t) |},
     Ret (log
          ++ entry client_email (client_subject case_number)
                   (client_body case_number (strftime_B_d_Y deadline_date)
                                reminder_message)
                   now_client
          ++ entry lawyer_email (lawyer_subject case_number)
                   (lawyer_body case_number (strftime_B_d_Y deadline_date)
                                client_email reminder_message)
                   now_lawyer,
          false, ReminderSavedAndSent)).
Proof.
  intros H1 H2 H3 Hport. unfold submit_reminder.
  rewrite (truthy_field _ H1), (truthy_field _ H2), (truthy_field _ H3).
  cbn [negb andb save_case_reminder fst].
  rewrite (send_reminder_emails_port (SMTP_PORT env) eq_refl).
  destruct (SMTP_PORT env); [reflexivity | reflexivity | destruct Hport].
Qed.

(** X17. When SMTP_PORT is set to something that is not a number, a
    complete form still stores the reminder, and the handler is then cut
    short by the ValueError that [int()] raises: no log entry, no notice,
    also when no credentials are configured. *)
Theorem bad_port_saves_then_raises (error : str) :
  case_number <> [] -> client_email <> [] -> lawyer_email <> [] ->
  SMTP_PORT env = PortNotANumber error ->
  submit_reminder env smtp (Ret tt) now now_client now_lawyer t log
                  show_reminder_form case_number client_email lawyer_email
                  deadline_date reminder_message
  = ({| rows := rows t ++ [{| rm_id := S (last_id t);
                              rm_case_number := case_number;
                              rm_client_email := client_email;
                              rm_lawyer_email := lawyer_email;
                              rm_deadline_date :=
                                strftime_Y_m_d deadline_date;
                              rm_message := reminder_message;
                              rm_created_at := now |}];
        last_id := S (last_id t) |},
     Raise error).
Proof.
  intros H1 H2 H3 Hport. unfold submit_reminder.
  rewrite (truthy_field _ H1), (truthy_field _ H2), (truthy_field _ H3).
  cbn [negb andb save_case_reminder fst].
  rewrite (send_reminder_emails_port _ Hport). reflexivity.
Qed.

(** X18. The notice "Failed to send reminder emails" is never shown:
    [send_reminder_emails] returns [True] whenever it returns. *)
Theorem send_failure_is_never_reported (storage : outcome unit)
        (log' : str) (show' : bool) :
  snd (submit_reminder env smtp storage now now_client now_lawyer t log
                       show_reminder_form case_number client_email
                       lawyer_email deadline_date reminder_message)
  <> Ret (log', show', FailedToSendEmails).
Proof.
  unfold submit_reminder.
  destruct (negb _ && negb _ && negb _); [|simpl; congruence].
  destruct storage as [[] | e]; cbn [save_case_reminder snd];
    [|congruence].
  rewrite (send_reminder_emails_port (SMTP_PORT env) eq_refl).
  destruct (SMTP_PORT env); simpl; congruence.
Qed.

End ReminderForm.

(* ================================================================== *)
(** * The downloadable report: lines, margins, page breaks *)
(* ================================================================== *)

Section ReportFacts.
Import PyStr Report.

Lemma drawn_texts_app (a b : list canvas_call) :
  drawn_texts (a ++ b) = drawn_texts a ++ drawn_texts b.
Proof.
  induction a as [|c a IH]; simpl; [reflexivity|].
  destruct c; simpl; rewrite IH; reflexivity.
Qed.

Lemma drawn_positions_app (a b : list canvas_call) :
  drawn_positions (a ++ b) = drawn_positions a ++ drawn_positions b.
Proof.
  induction a as [|c a IH]; simpl; [reflexivity|].
  destruct c; simpl; rewrite IH; reflexivity.
Qed.

Lemma page_breaks_app (a b : list canvas_call) :
  page_breaks (a ++ b) = page_breaks a + page_breaks b.
Proof.
  induction a as [|c a IH]; simpl; [reflexivity|].
  destruct c; simpl; rewrite IH; reflexivity.
Qed.

Lemma drawn_texts_draw_lines (lines : list str) (y : Z) :
  drawn_texts (draw_lines lines y) = map (firstn 1000) lines.
Proof.
  revert y. induction lines as [|l lines IH]; intros y; [reflexivity|].
  cbn [draw_lines drawn_texts map]. f_equal.
  destruct (y - 15 <? 50)%Z; cbn [drawn_texts]; apply IH.
Qed.

(** X19. The report draws its title and then every line of the text
    once, in the order of the text, each cut after 1000 characters. *)
Theorem report_draws_every_line (text : str) :
  drawn_texts (generate_pdf text)
  = lit "AI Legal Assistant - Report"
    :: map (firstn 1000) (split_newline text).
Proof.
  unfold generate_pdf.
  rewrite !drawn_texts_app, drawn_texts_draw_lines.
  cbn [drawn_texts app]. rewrite app_nil_r. reflexivity.
Qed.

Lemma split_newline_cons (s : str) :
  exists l ls, split_newline s = l :: ls.
Proof.
  induction s as [|c s [l [ls E]]]; simpl; [eauto|].
  destruct (Ascii.eqb c "010"); [eauto|]. rewrite E. eauto.
Qed.

Lemma join_newline_cons_char (c : ascii) (l : str) (ls : list str) :
  join_newline ((c :: l) :: ls) = c :: join_newline (l :: ls).
Proof. destruct ls; reflexivity. Qed.

Lemma join_split_newline (s : str) : join_newline (split_newline s) = s.
Proof.
  induction s as [|c s IH]; [reflexivity|].
  cbn [split_newline].
  destruct (Ascii.eqb c "010") eqn:E.
  - apply Ascii.eqb_eq in E. subst c.
    destruct (split_newline_cons s) as [l [ls El]].
    rewrite El in *.
    change (join_newline ([] :: l :: ls))
      with ("010"%char :: join_newline (l :: ls)).
    rewrite IH. reflexivity.
  - destruct (split_newline_cons s) as [l [ls El]].
    rewrite El in *. rewrite join_newline_cons_char, IH. reflexivity.
Qed.

Lemma firstn_short_lines (lines : list str) :
  Forall (fun l => List.length l <= 1000) lines ->
  map (firstn 1000) lines = lines.
Proof.
  induction 1 as [|l lines Hl _ IH]; cbn [map]; [reflexivity|].
  rewrite IH. f_equal. apply firstn_all2, Hl.
Qed.

(** X20. When no line of the text is longer than 1000 characters, the
    lines drawn under the title, joined by newlines, are the text: the
    report loses nothing of it. *)
Theorem report_keeps_the_text (text : str) :
  Forall (fun l => List.length l <= 1000) (split_newline text) ->
  join_newline (tl (drawn_texts (generate_pdf text))) = text.
Proof.
  intros H. unfold generate_pdf.
  rewrite !drawn_texts_app, drawn_texts_draw_lines.
  cbn [drawn_texts app tl]. rewrite app_nil_r.
  rewrite (firstn_short_lines _ H). apply join_split_newline.
Qed.

Lemma positions_draw_lines (lines : list str) (y : Z) :
  (50 <= y <= 742)%Z ->
  Forall (fun p => fst p = 50%Z /\ (50 <= snd p <= 742)%Z)
         (drawn_positions (draw_lines lines y)).
Proof.
  revert y. induction lines as [|l lines IH]; intros y Hy; [constructor|].
  cbn [draw_lines drawn_positions].
  constructor; [simpl; split; [reflexivity | exact Hy]|].
  destruct (y - 15 <? 50)%Z eqn:E; cbn [drawn_positions].
  - apply IH. unfold height. lia.
  - apply IH. apply Z.ltb_ge in E. lia.
Qed.

(** X21. Nothing is drawn outside the margins: every string is drawn at
    x = 50 and at a height between 50 and 742 points, whatever the length
    of the text. *)
Theorem report_stays_within_margins (text : str) :
  Forall (fun p => fst p = 50%Z /\ (50 <= snd p <= 742)%Z)
         (drawn_positions (generate_pdf text)).
Proof.
  unfold generate_pdf. rewrite !drawn_positions_app.
  apply Forall_app. split; [|apply Forall_app; split].
  - cbn [drawn_positions]. repeat constructor; unfold height; simpl; lia.
  - apply positions_draw_lines. unfold height. lia.
  - constructor.
Qed.

Lemma page_breaks_draw_lines (lines : list str) (y : Z) :
  (50 <= y <= 742)%Z ->
  Z.of_nat (page_breaks (draw_lines lines y))
  = ((Z.of_nat (List.length lines) + 47 - ((y - 50) / 15 + 1)) / 47)%Z.
Proof.
  revert y. induction lines as [|l lines IH]; intros y Hy.
  - cbn [draw_lines page_breaks List.length].
    Z.div_mod_to_equations. lia.
  - cbn [draw_lines page_breaks List.length].
    destruct (y - 15 <? 50)%Z eqn:E; cbn [page_breaks].
    + apply Z.ltb_lt in E.
      rewrite !Nat2Z.inj_succ, (IH (height - 50)%Z)
        by (unfold height; lia).
      unfold height. Z.div_mod_to_equations. lia.
    + apply Z.ltb_ge in E.
      rewrite Nat2Z.inj_succ, (IH (y - 15)%Z) by lia.
      Z.div_mod_to_equations. lia.
Qed.

(** X22. Page breaks.  The first page takes 45 lines of text and every
    later page 47: a text of [n] lines makes the loop break the page
    [(n + 2) / 47] times. *)
Theorem report_page_breaks (text : str) :
  page_breaks (generate_pdf text)
  = (List.length (split_newline text) + 2) / 47.
Proof.
  unfold generate_pdf. rewrite !page_breaks_app.
  cbn [page_breaks].
  pose proof (page_breaks_draw_lines (split_newline text) (height - 80)%Z)
    as H.
  unfold height in *. specialize (H ltac:(lia)).
  apply Nat2Z.inj. rewrite Nat2Z.inj_div, Nat2Z.inj_add.
  rewrite Nat.add_0_r, H. simpl Z.of_nat.
  Z.div_mod_to_equations. lia.
Qed.

End ReportFacts.

(* ================================================================== *)
(** * Text of an uploaded PDF: pages, exceptions, the OCR fallback *)
(* ================================================================== *)

Section ExtractorMore.
Import PyStr Py Extractor.

(** X23. [extract_text_from_pdf] never raises: whatever [pdfplumber], a
    page or the OCR service does, it returns a text. *)
Theorem extract_never_raises (ocr_api_key : option str) (file : pdf_file)
        (ocr_response : outcome ocr_json) :
  exists text shown,
    extract_text_from_pdf ocr_api_key file ocr_response
    = Ret (text, shown).
Proof.
  unfold extract_text_from_pdf.
  destruct file as [pages | e]; [|eauto].
  destruct (read_pages pages []) as [text [[] | e]]; [|eauto].
  destruct (Classifier.falsy (strip text) && truthy ocr_api_key); [|eauto].
  destruct (ocr_pdf_with_ocr_space ocr_response); eauto.
Qed.

Lemma read_pages_texts (texts : list (option str)) (rest : list page)
      (text : str) :
  read_pages (map Ret texts ++ rest) text
  = read_pages rest
      (text ++ flat_map (fun t => match t with
                                  | Some (c :: r) => (c :: r) ++ Mailer.nl
                                  | _ => []
                                  end) texts).
Proof.
  revert text. induction texts as [|t texts IH]; intros text.
  - simpl. rewrite app_nil_r. reflexivity.
  - destruct t as [[|c r]|];
      cbn [map app read_pages truthy flat_map]; rewrite IH; f_equal;
      repeat first [rewrite <- app_assoc | progress cbn [app]];
      reflexivity.
Qed.

(** X24. What the local extraction yields: the texts of the pages in
    order, each followed by a newline, pages without text skipped; a page
    that raises ends the reading and the pages before it are kept. *)
Theorem local_text_of_pages (texts : list (option str))
        (rest : list page) :
  rest = [] \/ (exists e more, rest = Raise e :: more) ->
  local_text (Ret (map Ret texts ++ rest))
  = flat_map (fun t => match t with
                       | Some (c :: r) => (c :: r) ++ Mailer.nl
                       | _ => []
                       end) texts.
Proof.
  intros H. unfold local_text. rewrite read_pages_texts.
  destruct H as [-> | [e [more ->]]]; reflexivity.
Qed.

Lemma local_text_of_pages_witness :
  local_text (Ret [Ret (Some (lit "SUMMONS")); Ret None; Ret (Some []);
                   Ret (Some (lit "To: A. Rao"));
                   Raise (lit "bad xref"); Ret (Some (lit "lost"))])
  = lit "SUMMONS" ++ Mailer.nl ++ lit "To: A. Rao" ++ Mailer.nl.
Proof.
  apply (local_text_of_pages
           [Some (lit "SUMMONS"); None; Some []; Some (lit "To: A. Rao")]
           [Raise (lit "bad xref"); Ret (Some (lit "lost"))]).
  right. exists (lit "bad xref"), [Ret (Some (lit "lost"))]. reflexivity.
Defined.

(** X25. The OCR service is left alone unless it is needed: without a
    key, with a local text that is not blank, or after an exception of
    the local reading, the result does not depend on what the service
    would answer. *)
Theorem ocr_only_when_needed (ocr_api_key : option str) (file : pdf_file)
        (answer1 answer2 : outcome ocr_json) :
  truthy ocr_api_key = false
  \/ Classifier.falsy (strip (local_text file)) = false
  \/ (exists e, file = Raise e)
  \/ (exists pages e, file = Ret pages
                      /\ snd (read_pages pages []) = Raise e) ->
  extract_text_from_pdf ocr_api_key file answer1
  = extract_text_from_pdf ocr_api_key file answer2.
Proof.
  unfold extract_text_from_pdf, local_text.
  intros [H | [H | [[e ->] | [pages [e [-> H]]]]]]; try reflexivity.
  - destruct file as [pages | e]; [|reflexivity].
    destruct (read_pages pages []) as [text [[] | e]]; [|reflexivity].
    rewrite H, andb_false_r. reflexivity.
  - destruct file as [pages | e]; [|reflexivity].
    destruct (read_pages pages []) as [text [[] | e]]; [|reflexivity].
    simpl in H. rewrite H. reflexivity.
  - destruct (read_pages pages []) as [text o]. simpl in H. subst o.
    reflexivity.
Qed.

Lemma ocr_only_when_needed_witness :
  let file : pdf_file := Ret [Ret (Some (lit "NOTICE"))] in
  extract_text_from_pdf (Some (lit "K85")) file
                        (Ret (Some [Some (lit "other")]))
  = Ret (lit "NOTICE" ++ Mailer.nl, []).
Proof.
  intros file.
  rewrite (ocr_only_when_needed (Some (lit "K85")) file
                                (Ret (Some [Some (lit "other")]))
                                (Raise [])).
  - reflexivity.
  - right. left. reflexivity.
Defined.

Lemma parsed_texts_flat (parsed : list (option str)) (text : str) :
  parsed_texts parsed text
  = text ++ flat_map (fun p => match p with Some t => t | None => [] end
                               ++ Mailer.nl) parsed.
Proof.
  revert text. induction parsed as [|p parsed IH]; intros text; simpl.
  - rewrite app_nil_r. reflexivity.
  - rewrite IH, <- !app_assoc. reflexivity.
Qed.

(** X26. The OCR fallback.  With a key, a readable document whose local
    text is blank and an answer of the service, the result is the
    [ParsedText] of every entry of [ParsedResults], each followed by a
    newline; an entry without [ParsedText] gives an empty line and an
    answer without [ParsedResults] the empty string. *)
Theorem ocr_fallback_text (ocr_api_key : option str) (pages : list page)
        (json : ocr_json) :
  truthy ocr_api_key = true ->
  snd (read_pages pages []) = Ret tt ->
  Classifier.falsy (strip (local_text (Ret pages))) = true ->
  extract_text_from_pdf ocr_api_key (Ret pages) (Ret json)
  = Ret (flat_map (fun p => match p with Some t => t | None => [] end
                            ++ Mailer.nl)
                  match json with Some l => l | None => [] end,
         []).
Proof.
  intros Hkey Hread Hblank. unfold extract_text_from_pdf, local_text in *.
  destruct (read_pages pages []) as [text o]. simpl in Hread, Hblank.
  subst o. rewrite Hblank, Hkey. simpl.
  rewrite parsed_texts_flat. reflexivity.
Qed.

Lemma ocr_fallback_text_witness :
  extract_text_from_pdf (Some (lit "K85")) (Ret [Ret None; Ret (Some [])])
                        (Ret (Some [Some (lit "SUMMONS"); None]))
  = Ret (lit "SUMMONS" ++ Mailer.nl ++ Mailer.nl, []).
Proof.
  rewrite ocr_fallback_text; reflexivity.
Defined.

End ExtractorMore.

(* ================================================================== *)
(** * IPC sections search tool: loading and a healthy search *)
(* ================================================================== *)

Section IpcSearchMore.
Import PyStr Py IpcSearch IpcTool.

Lemma strip_not_blank (query : str) (c : ascii) :
  In c query -> isspace c = false -> Classifier.falsy (strip query) = false.
Proof.
  intros Hin Hc.
  assert (occurs_in [c] (strip query)) as [pre [post E]].
  { apply strip_keeps.
    - unfold solid_ends. simpl. rewrite Hc. reflexivity.
    - apply in_split in Hin. destruct Hin as [l1 [l2 ->]].
      exists l1, l2. reflexivity. }
  rewrite E. destruct pre; reflexivity.
Qed.

(** X27. A healthy search.  With a store that is loaded and not empty, a
    query that holds a character other than whitespace and a similarity
    search that returns, the tool returns one record per document, in the
    order of the documents, with the page content as content; a metadata
    key that is missing gives [None] in the record, not an exception. *)
Theorem search_returns_one_record_per_document
        (db : vector_store) (query : str) (top_k : Z)
        (docs : list document) (c : ascii) :
  store_truth db = true ->
  In c query -> isspace c = false ->
  similarity_search db query top_k = Ret docs ->
  search_ipc_sections (Some db) query top_k = Ret (map result_of docs)
  /\ map content (map result_of docs) = map page_content docs.
Proof.
  intros Htruth Hin Hc Hsearch. split.
  - unfold search_ipc_sections.
    rewrite Htruth, (strip_not_blank query c Hin Hc), Hsearch. reflexivity.
  - rewrite map_map. reflexivity.
Qed.

Lemma search_returns_one_record_per_document_witness :
  let doc := {| metadata := [(lit "chapter", lit "XVII")];
                page_content := lit "Whoever commits theft" |} in
  let db := {| store_truth := true;
               similarity_search := fun _ _ => Ret [doc; doc] |} in
  search_ipc_sections (Some db) (lit " theft") 2
  = Ret [result_of doc; result_of doc]
  /\ section (result_of doc) = None
  /\ chapter (result_of doc) = Some (lit "XVII").
Proof.
  intros doc db. split; [|split; reflexivity].
  apply (proj1 (search_returns_one_record_per_document
                  db (lit " theft") 2 [doc; doc] "t"%char
                  eq_refl (or_intror (or_introl eq_refl)) eq_refl
                  eq_refl)).
Defined.

(** X28. Loading the tool.  The import raises when one of the two
    settings is missing or empty, before anything else is tried.  With
    both settings and the embedding function built, the import goes
    through even if the vector store cannot be opened, and every search
    after it returns a list. *)
Theorem import_fails_only_on_settings
        (PERSIST_DIR COLLECTION_NAME : option str)
        (embedding_function : outcome unit)
        (chroma : outcome vector_store) (query : str) (top_k : Z) :
  (truthy PERSIST_DIR = false \/ truthy COLLECTION_NAME = false ->
   exists e, import_module PERSIST_DIR COLLECTION_NAME embedding_function
                           chroma = Raise e)
  /\ (truthy PERSIST_DIR = true -> truthy COLLECTION_NAME = true ->
      embedding_function = Ret tt ->
      import_module PERSIST_DIR COLLECTION_NAME embedding_function chroma
      = Ret (load_vector_db chroma)
      /\ exists results,
           search_after_import PERSIST_DIR COLLECTION_NAME
                               embedding_function chroma query top_k
           = Ret results).
Proof.
  unfold search_after_import, import_module. split.
  - intros [-> | ->]; rewrite ?orb_true_r; simpl; eauto.
  - intros -> -> ->. simpl. split; [reflexivity|].
    unfold search_ipc_sections.
    destruct chroma as [db | e]; simpl; [|eauto].
    destruct (store_truth db); simpl; [|eauto].
    destruct (Classifier.falsy (strip query)); [eauto|].
    destruct (similarity_search db query top_k); simpl; eauto.
Qed.

Lemma import_fails_only_on_settings_witness :
  (exists e, import_module (Some (lit "./db")) None (Ret tt)
                           (Raise (lit "unused")) = Raise e)
  /\ import_module (Some (lit "./db")) (Some (lit "ipc")) (Ret tt)
                   (Raise (lit "no such collection"))
     = Ret None.
Proof.
  split.
  - apply (proj1 (import_fails_only_on_settings
                    (Some (lit "./db")) None (Ret tt)
                    (Raise (lit "unused")) [] 0)).
    right. reflexivity.
  - rewrite (proj1 (proj2 (import_fails_only_on_settings
                             (Some (lit "./db")) (Some (lit "ipc")) (Ret tt)
                             (Raise (lit "no such collection"))
                             (lit "theft") 3)
                          eq_refl eq_refl eq_refl)).
    reflexivity.
Defined.

End IpcSearchMore.

(* ================================================================== *)
(** * Conversation titles *)
(* ================================================================== *)

Section TitlesFacts.
Import PyStr Py Store Titles.

(** X29. A title is never empty and never longer than 48 characters: a
    message of up to 45 characters is its own title, a longer one is cut
    after 45 characters and followed by three dots, and a missing or empty
    message is shown as "User message". *)
Theorem excerpt_is_short_and_not_empty (msg : option str) :
  1 <= List.length (excerpt msg) <= 48
  /\ (forall m, msg = Some m -> m <> [] -> List.length m <= 45 ->
                excerpt msg = m)
  /\ (forall m, msg = Some m -> 45 < List.length m ->
                excerpt msg = firstn 45 m ++ lit "...")
  /\ (msg = None \/ msg = Some [] -> excerpt msg = lit "User message").
Proof.
  unfold excerpt.
  destruct msg as [[|c m]|].
  - split; [simpl; lia|]. split; [intros m E; inversion E; congruence|].
    split; [intros m E; inversion E; simpl; lia | reflexivity].
  - cbn [truthy andb].
    destruct (45 <? List.length (c :: m)) eqn:L.
    + apply Nat.ltb_lt in L. split.
      * rewrite length_app, firstn_length_le by lia. simpl. lia.
      * split; [intros m' E; inversion E; subst; lia|].
        split; [intros m' E _; inversion E; reflexivity|].
        intros [E | E]; discriminate.
    + apply Nat.ltb_ge in L. split; [simpl in *; lia|].
      split; [intros m' E _ _; inversion E; reflexivity|].
      split; [intros m' E; inversion E; subst; lia|].
      intros [E | E]; discriminate.
  - split; [simpl; lia|]. split; [discriminate|].
    split; [discriminate | reflexivity].
Qed.

Lemma excerpt_is_short_and_not_empty_witness :
  excerpt (Some (lit "Can my landlord evict me without any notice at all?"))
  = lit "Can my landlord evict me without any notice a..."
  /\ excerpt (Some (lit "What is bail?")) = lit "What is bail?"
  /\ excerpt None = lit "User message".
Proof.
  split; [|split].
  - rewrite (proj1 (proj2 (proj2 (excerpt_is_short_and_not_empty
                                    (Some (lit "Can my landlord evict me without any notice at all?")))))
                   _ eq_refl) by (simpl; lia).
    reflexivity.
  - rewrite (proj1 (proj2 (excerpt_is_short_and_not_empty
                             (Some (lit "What is bail?"))))
                   _ eq_refl) by (try discriminate; simpl; lia).
    reflexivity.
  - apply (proj2 (proj2 (proj2 (excerpt_is_short_and_not_empty None)))).
    left. reflexivity.
Defined.

Lemma first_ts_lower (u cid : str) (l : list history_row) (h : history_row) :
  In h l -> written_by u h = true -> h_conversation_id h = cid ->
  exists t, first_ts u cid l = Some t /\ t <= h_timestamp h.
Proof.
  intros Hin Hw Hc. induction l as [|x l IH]; [destruct Hin|].
  simpl. destruct Hin as [-> | Hin].
  - rewrite Hw, Hc, str_eqb_refl. simpl.
    destruct (first_ts u cid l) as [t|]; eexists; split;
      try reflexivity; lia.
  - destruct (IH Hin) as [t [E Ht]]. rewrite E.
    destruct (written_by u x && str_eqb (h_conversation_id x) cid);
      eexists; split; try reflexivity; lia.
Qed.

Lemma first_ts_attained (u cid : str) (l : list history_row) (t : nat) :
  first_ts u cid l = Some t ->
  exists h, In h l /\ written_by u h = true /\ h_conversation_id h = cid
            /\ h_timestamp h = t.
Proof.
  revert t. induction l as [|x l IH]; intros t; simpl; [discriminate|].
  destruct (written_by u x && str_eqb (h_conversation_id x) cid) eqn:M.
  - apply andb_true_iff in M. destruct M as [Hw Hc].
    apply str_eqb_eq in Hc.
    destruct (first_ts u cid l) as [t'|].
    + intros E. inversion E; subst. clear E.
      destruct (Nat.min_spec (h_timestamp x) t') as [[_ Em] | [_ Em]];
        rewrite Em.
      * exists x. auto.
      * destruct (IH t' eq_refl) as [h [Hin Hh]]. exists h. tauto.
    + intros E. inversion E; subst. exists x. auto.
  - intros E. destruct (IH t E) as [h [Hin Hh]]. exists h. tauto.
Qed.

Lemma insert_desc_perm (r : history_row) (l : list history_row) :
  Permutation (insert_desc r l) (r :: l).
Proof.
  induction l as [|x l IH]; simpl; [reflexivity|].
  destruct (h_timestamp x <=? h_timestamp r); [reflexivity|].
  rewrite IH. apply perm_swap.
Qed.

Lemma order_desc_perm (l : list history_row) :
  Permutation (order_desc l) l.
Proof.
  induction l as [|r l IH]; simpl; [reflexivity|].
  rewrite insert_desc_perm, IH. reflexivity.
Qed.

Lemma insert_desc_Forall (P : history_row -> Prop) (r : history_row)
      (l : list history_row) :
  P r -> Forall P l -> Forall P (insert_desc r l).
Proof.
  intros Hr. induction 1 as [|x l Hx Hl IH]; simpl.
  - repeat constructor. exact Hr.
  - destruct (_ <=? _); repeat constructor; assumption.
Qed.

Lemma insert_desc_sorted (r : history_row) (l : list history_row) :
  StronglySorted (fun a b => h_timestamp b <= h_timestamp a) l ->
  StronglySorted (fun a b => h_timestamp b <= h_timestamp a)
                 (insert_desc r l).
Proof.
  induction 1 as [|x l Hs IH Hx]; simpl.
  - repeat constructor.
  - destruct (h_timestamp x <=? h_timestamp r) eqn:E.
    + apply Nat.leb_le in E.
      constructor; [constructor; assumption|].
      constructor; [exact E|].
      apply Forall_impl with (2 := Hx). intros y Hy. lia.
    + apply Nat.leb_gt in E. constructor; [exact IH|].
      apply insert_desc_Forall; [lia | exact Hx].
Qed.

Lemma written_by_spec (u : str) (h : history_row) :
  written_by u h = true <-> h_username h = u /\ h_is_user_message h = true.
Proof.
  unfold written_by. rewrite andb_true_iff, str_eqb_eq. reflexivity.
Qed.

(** X30. The titles in the sidebar.  Every title stands for a
    conversation in which this user wrote, and shows the excerpt of a
    message of this user that no other message of this user in the
    conversation precedes; every conversation in which the user wrote has
    a title; and the titles come with the conversation started last
    first.  Messages of other users never give a title. *)
Theorem titles_are_first_user_messages (d : db) (username : str) :
  (forall cid title,
      In (cid, title) (load_conversation_titles d username) ->
      exists h, In h (history d)
                /\ h_username h = username
                /\ h_is_user_message h = true
                /\ h_conversation_id h = cid
                /\ title = excerpt (Some (h_message h))
                /\ forall g, In g (history d) ->
                             h_username g = username ->
                             h_is_user_message g = true ->
                             h_conversation_id g = cid ->
                             h_timestamp h <= h_timestamp g)
  /\ (forall h, In h (history d) ->
                h_username h = username -> h_is_user_message h = true ->
                exists title,
                  In (h_conversation_id h, title)
                     (load_conversation_titles d username))
  /\ StronglySorted (fun a b => h_timestamp b <= h_timestamp a)
                    (title_rows d username).
Proof.
  unfold load_conversation_titles, title_rows.
  split; [|split].
  - intros cid title Hin. apply in_map_iff in Hin.
    destruct Hin as [h [E Hh]]. inversion E; subst. clear E.
    apply (Permutation_in _ (order_desc_perm _)) in Hh.
    apply filter_In in Hh. destruct Hh as [Hh Hfirst].
    unfold is_first in Hfirst. apply andb_true_iff in Hfirst.
    destruct Hfirst as [Hw Hmin]. apply written_by_spec in Hw.
    destruct (first_ts username (h_conversation_id h) (history d))
      as [t|] eqn:F; [|discriminate].
    apply Nat.eqb_eq in Hmin.
    exists h. repeat split; try tauto.
    intros g Hg Hu Hm Hc.
    destruct (first_ts_lower username (h_conversation_id h) (history d) g
                             Hg (proj2 (written_by_spec _ _) (conj Hu Hm))
                             Hc) as [t' [F' Ht']].
    rewrite F in F'. inversion F'; subst. lia.
  - intros h Hh Hu Hm.
    pose proof (proj2 (written_by_spec username h) (conj Hu Hm)) as Hw.
    destruct (first_ts_lower username (h_conversation_id h) (history d) h
                             Hh Hw eq_refl) as [t [F _]].
    destruct (first_ts_attained _ _ _ _ F) as [h0 [Hin0 [Hw0 [Hc0 Ht0]]]].
    exists (excerpt (Some (h_message h0))).
    apply in_map_iff. exists h0. split; [rewrite Hc0; reflexivity|].
    apply (Permutation_in _ (Permutation_sym (order_desc_perm _))).
    apply filter_In. split; [exact Hin0|].
    unfold is_first. rewrite Hw0, Hc0, F, Ht0, Nat.eqb_refl. reflexivity.
  - induction (filter _ (history d)) as [|r l IH]; simpl; [constructor|].
    apply insert_desc_sorted, IH.
Qed.

(** Two conversations of "asha", one of them also written in by "ravi";
    the later conversation comes first and the answer of the assistant
    gives no title. *)
Lemma titles_are_first_user_messages_witness :
  let row (t : nat) (u cid : string) (user : bool) (text : string) :=
    {| h_username := lit u; h_role := lit "civilian";
       h_conversation_id := lit cid; h_timestamp := t;
       h_is_user_message := user; h_message := lit text |} in
  let d := {| users := [];
              history := [row 1 "asha" "c1" true "What is bail?";
                          row 1 "asha" "c1" false "Bail is ...";
                          row 4 "ravi" "c1" true "And a bond?";
                          row 7 "asha" "c2" true "Is rent control law?";
                          row 9 "asha" "c1" true "Thanks"]%string |} in
  load_conversation_titles d (lit "asha")
  = [(lit "c2", lit "Is rent control law?");
     (lit "c1", lit "What is bail?")]
  /\ exists title, In (lit "c1", title)
                      (load_conversation_titles d (lit "ravi")).
Proof.
  intros row d. split; [reflexivity|].
  apply (proj1 (proj2 (titles_are_first_user_messages d (lit "ravi")))
               (row 4 "ravi" "c1" true "And a bond?")%string).
  - simpl. tauto.
  - reflexivity.
  - reflexivity.
Defined.

End TitlesFacts.

(* ================================================================== *)
(** * Worked examples *)
(* ================================================================== *)

Section WorkedExamples.
Import PyStr Py Store Session Mailer Reminders Report.

(** "ravi" registers as a lawyer and logs in on the lawyer page. *)
Lemma login_needs_matching_row_witness :
  let h := @rev ascii in
  let d := fst (register_user h init_db (lit "ravi") (lit "pw")
                              (lit "lawyer") None) in
  let s := select_role initial (Some (lit "lawyer")) in
  let s' := fst (login_click h s d (lit "ravi") (lit "pw") (lit "u-1")) in
  ss_username s' = Some (lit "ravi")
  /\ current_conversation_id s' = Some (lit "u-1")
  /\ logged_in (fst (login_click h (select_role initial
                                                (Some (lit "civilian")))
                                 d (lit "ravi") (lit "pw") (lit "u-1")))
     = false.
Proof.
  intros h d s s'.
  destruct (login_needs_matching_row h s d (lit "ravi") (lit "pw")
                                     (lit "u-1") eq_refl eq_refl)
    as [_ [_ [_ [_ [H1 H2]]]]].
  split; [exact H1 | split; [exact H2 | reflexivity]].
Defined.

Lemma register_then_login_witness :
  let h := @rev ascii in
  let s := select_role initial (Some (lit "civilian")) in
  let d' := fst (register_click h s init_db (lit "asha") (lit "s3cret")
                                (lit "a@x.org")) in
  logged_in (fst (login_click h s d' (lit "asha") (lit "s3cret")
                              (lit "u-1"))) = true
  /\ user_email (fst (login_click h s d' (lit "asha") (lit "s3cret")
                                  (lit "u-1"))) = Some (lit "a@x.org").
Proof.
  intros h s d'. unfold d'.
  rewrite (proj2 (register_then_login
                    h s init_db (lit "civilian") (lit "asha")
                    (lit "s3cret") (lit "a@x.org") (lit "u-1")
                    eq_refl eq_refl ltac:(discriminate)
                    ltac:(discriminate) ltac:(discriminate)
                    ltac:(intros r []))).
  split; reflexivity.
Defined.

(** A first turn of a new session, refused by the gate, both rows
    written within the same second, over a store that holds a row of
    another conversation with a later timestamp. *)
Lemma chat_turn_keeps_in_sync_witness :
  let s := {| logged_in := true; ss_role := Some (lit "civilian");
              ss_username := Some (lit "asha");
              user_email := Some (lit "a@x.org"); messages := [];
              current_conversation_id := None;
              show_reminder_form := false; show_reminders := false |} in
  let d := save_chat_message init_db 9 (lit "ravi") (lit "lawyer")
                             (lit "c0") true (lit "earlier chat") in
  let after := chat_turn None (lit "u-1") 3 3 s d (lit "hello there") in
  in_sync (fst after) (snd after)
  /\ messages (fst after)
     = [{| role := lit "user"; content := lit "hello there" |};
        {| role := lit "assistant";
           content := Groq.get_non_legal_response |}].
Proof.
  intros s d after. split; [|reflexivity].
  apply chat_turn_keeps_in_sync.
  - reflexivity.
  - intros h [<- | []] Hc. vm_compute in Hc. discriminate.
  - lia.
  - discriminate.
  - intros _ h [<- | []] Hc. vm_compute in Hc. discriminate.
Defined.

Lemma entry_points_keep_in_sync_witness :
  let d := save_chat_message init_db 5 (lit "asha") (lit "civilian")
                             (lit "c1") true (lit "What is bail?") in
  let s := {| logged_in := true; ss_role := Some (lit "civilian");
              ss_username := Some (lit "asha");
              user_email := Some []; messages := [];
              current_conversation_id := None;
              show_reminder_form := false; show_reminders := false |} in
  in_sync (open_conversation s d (lit "c1")) d
  /\ messages (open_conversation s d (lit "c1"))
     = [{| role := lit "user"; content := lit "What is bail?" |}]
  /\ in_sync (new_chat (open_conversation s d (lit "c1")) (lit "u-2")) d.
Proof.
  intros d s.
  assert (in_sync s d) as H0 by reflexivity.
  assert (in_sync (open_conversation s d (lit "c1")) d) as H1.
  { apply (proj1 (proj2 (proj2 (entry_points_keep_in_sync (@rev ascii) s d
                                                          H0)))).
    discriminate. }
  split; [exact H1 | split; [reflexivity|]].
  apply (proj1 (proj2 (entry_points_keep_in_sync (@rev ascii) _ d H1))).
  - discriminate.
  - intros h [<- | []]. discriminate.
Defined.

(** Two reminders saved with the later deadline first. *)
Lemma reminders_listed_by_deadline_witness :
  let december := {| year := 2026; month_of := December; day := 1 |} in
  let may := {| year := 2026; month_of := May; day := 4 |} in
  let t := run empty [SaveReminder 0 (lit "CR-1") (lit "c@x.org")
                                   (lit "l@x.org") december [];
                      SaveReminder 0 (lit "CR-2") (lit "c@x.org")
                                   (lit "l@x.org") may []] in
  map rm_case_number (get_all_reminders t) = [lit "CR-2"; lit "CR-1"]
  /\ date_compare may december <> Gt.
Proof.
  intros december may t. split; [reflexivity|].
  eapply (reminders_listed_by_deadline t [] [] [] _ _ may december).
  - reflexivity.
  - reflexivity.
  - reflexivity.
  - unfold calendar_date. simpl. lia.
  - unfold calendar_date. simpl. lia.
Defined.

Lemma nothing_sent_unless_saved_witness :
  let env := {| SENDER_EMAIL := None; SENDER_PASSWORD := None;
                SMTP_SERVER := None; SMTP_PORT := PortUnset |} in
  exists notice,
    submit_reminder env (fun _ _ _ _ _ _ _ => Ret tt) (Ret tt) 0
                    (lit "t1") (lit "t2") empty (lit "old") true
                    (lit "CR-12") [] (lit "l@x.org")
                    {| year := 2026; month_of := March; day := 7 |} []
    = (empty, Ret (lit "old", true, notice))
    /\ notice <> ReminderSavedAndSent.
Proof.
  intros env. apply nothing_sent_unless_saved.
  right. left. reflexivity.
Defined.

Lemma complete_form_saves_and_sends_witness :
  let env := {| SENDER_EMAIL := None; SENDER_PASSWORD := None;
                SMTP_SERVER := None; SMTP_PORT := PortUnset |} in
  exists t' log',
    submit_reminder env (fun _ _ _ _ _ _ _ => Ret tt) (Ret tt) 0
                    (lit "t1") (lit "t2") empty (lit "old") true
                    (lit "CR-12") (lit "c@x.org") (lit "l@x.org")
                    {| year := 2026; month_of := March; day := 7 |} []
    = (t', Ret (log', false, ReminderSavedAndSent))
    /\ map rm_deadline_date (rows t') = [lit "2026-03-07"].
Proof.
  intros env. eexists. eexists. split.
  - apply complete_form_saves_and_sends; try discriminate. exact I.
  - reflexivity.
Defined.

Lemma bad_port_saves_then_raises_witness :
  let error := lit "invalid literal for int() with base 10: 'smtp'" in
  let env := {| SENDER_EMAIL := None; SENDER_PASSWORD := None;
                SMTP_SERVER := None;
                SMTP_PORT := PortNotANumber error |} in
  exists t',
    submit_reminder env (fun _ _ _ _ _ _ _ => Ret tt) (Ret tt) 0
                    (lit "t1") (lit "t2") empty (lit "old") true
                    (lit "CR-12") (lit "c@x.org") (lit "l@x.org")
                    {| year := 2026; month_of := March; day := 7 |} []
    = (t', Raise error)
    /\ map rm_case_number (rows t') = [lit "CR-12"].
Proof.
  intros error env. eexists. split.
  - apply bad_port_saves_then_raises with (error := error);
      try discriminate.
    reflexivity.
  - reflexivity.
Defined.

Lemma report_keeps_the_text_witness :
  let text := lit "Section 378." ++ "010"%char :: "010"%char
                  :: lit "Theft." in
  drawn_texts (generate_pdf text)
  = [lit "AI Legal Assistant - Report"; lit "Section 378."; [];
     lit "Theft."]
  /\ join_newline (tl (drawn_texts (generate_pdf text))) = text.
Proof.
  intros text. split; [reflexivity|].
  apply report_keeps_the_text.
  repeat constructor; simpl; lia.
Defined.

End WorkedExamples.
